(** * gtl/generate_randomized_freepool.py: the generation driver

  A shallow embedding of the driver script of the randomized free pool
  generator, and the properties of its command line handling, of the
  sub-processes it starts and of the files it writes.

  Python [str] values are modelled as [string]; [sys.argv] as a list of
  them.  The two external effects of the script ([subprocess.check_call]
  and [open(...,"w")]) run against an abstract world and are recorded, in
  program order, in a trace. *)

From Stdlib Require Import String Ascii List Bool ZArith Lia.
Import ListNotations.
Local Open Scope string_scope.
Local Open Scope list_scope.

(** ** Python strings *)

Module PyStr.

(** Line feed and the double quote, which have no literal of their own. *)
Definition LF : ascii := "010"%char.
Definition DQ : string := String "034"%char EmptyString.

(** [s.startswith(pre)], returning what follows [pre]. *)
Fixpoint removeprefix (pre s : string) : option string :=
  match pre, s with
  | EmptyString, _ => Some s
  | String a pre', String b s' =>
      if Ascii.eqb a b then removeprefix pre' s' else None
  | String _ _, EmptyString => None
  end.

Definition startswith (s pre : string) : bool :=
  match removeprefix pre s with Some _ => true | None => false end.

(** [s.endswith(c)] for one character. *)
Fixpoint endswith_char (s : string) (c : ascii) : bool :=
  match s with
  | EmptyString => false
  | String a EmptyString => Ascii.eqb a c
  | String _ s' => endswith_char s' c
  end.

(** [c in s], for one character. *)
Fixpoint contains (c : ascii) (s : string) : bool :=
  match s with
  | EmptyString => false
  | String a s' => Ascii.eqb a c || contains c s'
  end.

(** [s.rfind(c)] for a one-character needle: the highest index of [c] in
    [s], or [-1].  [i] is the index of the head of [s], [last] the
    highest index seen so far. *)
Fixpoint rfind_from (c : ascii) (s : string) (i last : Z) : Z :=
  match s with
  | EmptyString => last
  | String a s' => rfind_from c s' (i + 1) (if Ascii.eqb a c then i else last)
  end.

Definition rfind (c : ascii) (s : string) : Z := rfind_from c s 0 (-1).

(** The slices [s[:n]] and [s[n:]] for [0 <= n]. *)
Fixpoint take (n : nat) (s : string) : string :=
  match n, s with
  | S n', String a s' => String a (take n' s')
  | _, _ => EmptyString
  end.

Fixpoint drop (n : nat) (s : string) : string :=
  match n, s with
  | S n', String _ s' => drop n' s'
  | _, _ => s
  end.

(** [s.rstrip(c)]: [s] without its trailing run of [c]. *)
Fixpoint rstrip (c : ascii) (s : string) : string :=
  match s with
  | EmptyString => EmptyString
  | String a s' =>
      match rstrip c s' with
      | EmptyString => if Ascii.eqb a c then EmptyString else String a EmptyString
      | r => String a r
      end
  end.

(** [s == c * len(s)]. *)
Fixpoint all_eq (c : ascii) (s : string) : bool :=
  match s with
  | EmptyString => true
  | String a s' => Ascii.eqb a c && all_eq c s'
  end.

(** [s.split(c)]: the pieces of [s] between the occurrences of [c]; never
    the empty list. *)
Fixpoint split (c : ascii) (s : string) : list string :=
  match s with
  | EmptyString => [EmptyString]
  | String a s' =>
      match split c s' with
      | hd :: tl => if Ascii.eqb a c then EmptyString :: hd :: tl
                    else String a hd :: tl
      | [] => [EmptyString]
      end
  end.

(** The text of a triple-quoted literal whose every line ends in a line
    feed. *)
Fixpoint unlines (ls : list string) : string :=
  match ls with
  | [] => EmptyString
  | l :: ls' => l ++ String LF (unlines ls')
  end.

(** Truth value of an optional string: [None] and [""] are false. *)
Definition truthy (o : option string) : bool :=
  match o with
  | Some (String _ _) => true
  | _ => false
  end.

End PyStr.

(** ** The two regular expressions of the argument loop *)

Module Re.
Import PyStr.

(** What the group of the pattern captures: a dot matches every character
    but the line feed, and the star is greedy, so the group is the text up
    to the first line feed. *)
Fixpoint dot_star (s : string) : string :=
  match s with
  | EmptyString => EmptyString
  | String a s' => if Ascii.eqb a LF then EmptyString else String a (dot_star s')
  end.

(** [re.match] of the pattern made of [^], the literal [flag] and a group
    of any characters, against [arg]: [None] when there is no match, the
    group [m[1]] otherwise. *)
Definition match_flag (flag arg : string) : option string :=
  option_map dot_star (removeprefix flag arg).

End Re.

(** ** posixpath *)

Module PosixPath.
Import PyStr.

Definition sep : ascii := "/"%char.

(** [p[:p.rfind("/") + 1]]. *)
Definition head_of (p : string) : string := take (Z.to_nat (rfind sep p + 1)) p.

(** [os.path.dirname]. *)
Definition dirname (p : string) : string :=
  let head := head_of p in
  match head with
  | EmptyString => head
  | _ => if all_eq sep head then head else rstrip sep head
  end.

(** [os.path.basename]: [p[p.rfind("/") + 1:]]. *)
Definition basename (p : string) : string := drop (Z.to_nat (rfind sep p + 1)) p.

(** [os.path.join(a, b)] for two components. *)
Definition join (a b : string) : string :=
  if startswith b (String sep EmptyString) then b
  else if (a =? "")%string || endswith_char a sep then a ++ b
  else a ++ String sep b.

End PosixPath.

(** ** Effects: sub-processes and files *)

(** What the script does to the outside, in program order. *)
Inductive event : Type :=
| LogDebug (cmdline : list string)            (* logging.debug("CMDLINE %s", cmdline) *)
| CheckCall (cmdline : list string)           (* subprocess.check_call(cmdline) *)
| FileWrite (path content : string).          (* with open(path, "w") as fd: fd.write(content) *)

(** The exceptions that can leave [main]. *)
Inductive exn : Type :=
| Exception (msg : string)
| CalledProcessError (returncode : Z) (cmd : list string)
| OSError (filename : string).

Inductive outcome (A : Type) : Type :=
| Return (a : A)
| Raise (e : exn).
Arguments Return {A} a.
Arguments Raise {A} e.

(** The process as the interpreter hands it to the script. *)
Record process : Type := {
argv0 : string;           (* sys.argv[0] *)
args : list string;       (* sys.argv[1:] *)
executable : string       (* sys.executable *)
}.

(** The variables of the argument loop. *)
Record parsed : Type := {
output : option string;
package : option string;
generate_argv : list string
}.

(** ** The argument loop *)

(** Whether [arg] matches the pattern of [flag], whatever the group. *)
Definition is_flag (flag arg : string) : bool := PyStr.startswith arg flag.

Definition no_args : parsed :=
  {| output := None; package := None; generate_argv := [] |}.

(** One turn of the loop over [sys.argv[1:]].  The [else] belongs to the
    test for [--output=] alone: an argument that matches [--package=] sets
    [package] and is appended to [generate_argv] all the same. *)
Definition parse_arg (st : parsed) (arg : string) : parsed :=
  let package' :=
    match Re.match_flag "--package=" arg with
    | Some g => Some g
    | None => package st
    end in
  match Re.match_flag "--output=" arg with
  | Some g =>
      {| output := Some g; package := package'; generate_argv := generate_argv st |}
  | None =>
      {| output := output st; package := package';
         generate_argv := generate_argv st ++ [arg] |}
  end.

Definition parse_args (argv : list string) : parsed :=
  fold_left parse_arg argv no_args.

(** ** The two fixed files *)

Definition internal_s_name : string := "randomized_freepool_internal.s".
Definition internal_go_name : string := "randomized_freepool_internal.go".

Definition internal_s_lines : list string :=
  [ "// Code generated by generate_randomized_freepool.py. DO NOT EDIT.";
    "";
    "// Dummy file to force the go compiler to honor go:linkname directives. See";
    "//";
    "// https://github.com/golang/go/issues/15006";
    "// http://www.alangpierce.com/blog/2016/03/17/adventures-in-go-accessing-unexported-functions/" ].

Definition internal_s_text : string := PyStr.unlines internal_s_lines.

Definition internal_go_lines (package : string) : list string :=
  let q := PyStr.DQ in
  [ "// Code generated by generate_randomized_freepool.py. DO NOT EDIT.";
    "package " ++ package;
    "";
    "// This import is needed to use go:linkname.";
    "import _ " ++ q ++ "unsafe" ++ q;
    "";
    "// The following functions are defined in go runtime.  To use them, we need to";
    "// import " ++ q ++ "unsafe" ++ q ++ ", and elsewhere in this package, import "
      ++ q ++ "C" ++ q ++ " to force compiler";
    "// to recognize the " ++ q ++ "go:linktime" ++ q
      ++ " directive. Some of the details are explained";
    "// in the below blog post.";
    "//";
    "// procPin() pins the caller to the current processor, and returns the processor";
    "// id in range [0,GOMAXPROCS). procUnpin() undos the effect of procPin().";
    "//";
    "// http://www.alangpierce.com/blog/2016/03/17/adventures-in-go-accessing-unexported-functions/";
    "";
    "//go:linkname runtime_procPin sync.runtime_procPin";
    "//go:nosplit";
    "func runtime_procPin() int";
    "";
    "//go:linkname runtime_procUnpin sync.runtime_procUnpin";
    "//go:nosplit";
    "func runtime_procUnpin()";
    "";
    "//go:linkname fastrandn sync.fastrandn";
    "func fastrandn(n uint32) uint32" ]%string.

Definition internal_go_text (package : string) : string :=
  PyStr.unlines (internal_go_lines package).

(** The glue text around the package name. *)
Definition internal_go_head : string :=
  ("// Code generated by generate_randomized_freepool.py. DO NOT EDIT."
   ++ String PyStr.LF "package ")%string.

Definition internal_go_tail : string :=
  String PyStr.LF (PyStr.unlines (skipn 2 (internal_go_lines ""))).

(** The command line of one template expansion:
    [[sys.executable, os.path.join(gtl_dir, "generate.py"), f"--output={output}{suffix}"]
     + generate_argv + [os.path.join(gtl_dir, template)]]. *)
Definition generate_cmdline (p : process) (gtl_dir output suffix : string)
    (generate_argv : list string) (template : string) : list string :=
  [executable p; PosixPath.join gtl_dir "generate.py";
   ("--output=" ++ output ++ suffix)%string]
  ++ generate_argv
  ++ [PosixPath.join gtl_dir template].

(** [output_dir]: the directory of [output], or ["."] when it has none. *)
Definition output_dir_of (output : string) : string :=
  match PosixPath.dirname output with
  | EmptyString => "."
  | d => d
  end.

(** The two expansion command lines and the two fixed paths of a run whose
    [--output=] flag gave [o]. *)
Definition first_cmdline (p : process) (o : string) : list string :=
  generate_cmdline p (PosixPath.dirname (argv0 p)) o ".go"
    (filter (fun a => negb (is_flag "--output=" a)) (args p))
    "randomized_freepool.go.tpl".

Definition second_cmdline (p : process) (o : string) : list string :=
  generate_cmdline p (PosixPath.dirname (argv0 p)) o "_race.go"
    (filter (fun a => negb (is_flag "--output=" a)) (args p))
    "randomized_freepool_race.go.tpl".

Definition internal_s_path (o : string) : string :=
  (output_dir_of o ++ "/" ++ internal_s_name)%string.

Definition internal_go_path (o : string) : string :=
  (output_dir_of o ++ "/" ++ internal_go_name)%string.

(** The five effects of a run that goes through. *)
Definition full_trace (p : process) (o g : string) : list event :=
  [LogDebug (first_cmdline p o); CheckCall (first_cmdline p o);
   CheckCall (second_cmdline p o);
   FileWrite (internal_s_path o) internal_s_text;
   FileWrite (internal_go_path o) (internal_go_text g)].

Section Driver.

(** The outside world is abstract: a sub-process returns an exit status
    and changes the world as it pleases; opening a file for writing
    either fails or stores the text. *)
Variable World : Type.
Variable spawn : list string -> World -> Z * World.
Variable store : string -> string -> World -> option World.

Record state : Type := {
  world : World;
  trace : list event      (* oldest first *)
}.

Definition M (A : Type) : Type := state -> outcome A * state.

Definition ret {A} (a : A) : M A := fun st => (Return a, st).

Definition bind {A B} (m : M A) (k : A -> M B) : M B :=
  fun st =>
    match m st with
    | (Return a, st') => k a st'
    | (Raise e, st') => (Raise e, st')
    end.

Definition raise {A} (e : exn) : M A := fun st => (Raise e, st).

Definition emit (e : event) (w : World) (st : state) : state :=
  {| world := w; trace := trace st ++ [e] |}.

Definition log_debug (cmdline : list string) : M unit :=
  fun st => (Return tt, emit (LogDebug cmdline) (world st) st).

(** [subprocess.check_call]: runs the command, raises on a nonzero exit
    status. *)
Definition check_call (cmdline : list string) : M unit :=
  fun st =>
    let (rc, w) := spawn cmdline (world st) in
    let st' := emit (CheckCall cmdline) w st in
    if (rc =? 0)%Z then (Return tt, st')
    else (Raise (CalledProcessError rc cmdline), st').

(** [with open(path, "w") as fd: fd.write(content)].  [store] answers for
    the whole statement: [Some] when the file is opened and the text
    written, [None] when it is not, and then the run ends as it does when
    [open] fails: [OSError] for the path, the world as it was.  A failure
    of [fd.write] after [open] succeeded is not told apart from that. *)
Definition write_file (path content : string) : M unit :=
  fun st =>
    match store path content (world st) with
    | Some w => (Return tt, emit (FileWrite path content) w st)
    | None => (Raise (OSError path), st)
    end.

Notation "m1 ;; m2" := (bind m1 (fun _ => m2))
  (at level 61, right associativity).

(** [main].  [logging.basicConfig] only configures the logger and is left
    out. *)
Definition main (p : process) : M unit :=
  let st := parse_args (args p) in
  match output st, package st with
  | Some (String _ _ as output), Some (String _ _ as package) =>
      let generate_argv := generate_argv st in
      let gtl_dir := PosixPath.dirname (argv0 p) in
      let output_dir := output_dir_of output in
      let cmdline :=
        generate_cmdline p gtl_dir output ".go" generate_argv
          "randomized_freepool.go.tpl" in
      log_debug cmdline ;;
      check_call
        (generate_cmdline p gtl_dir output ".go" generate_argv
           "randomized_freepool.go.tpl") ;;
      check_call
        (generate_cmdline p gtl_dir output "_race.go" generate_argv
           "randomized_freepool_race.go.tpl") ;;
      write_file (output_dir ++ "/" ++ internal_s_name) internal_s_text ;;
      write_file (output_dir ++ "/" ++ internal_go_name) (internal_go_text package)
  | _, _ =>
      (* if not output or not package *)
      raise (Exception "--output and --package not set")
  end.

Definition init (w : World) : state := {| world := w; trace := [] |}.

Definition run (p : process) (w : World) : outcome unit * state :=
  main p (init w).

(** What [main] does once both flags are known to be set, with the
    sequencing written out; [run_set] below shows the two agree. *)
Definition generate (p : process) (o g : string) (w : World) : outcome unit * state :=
  let c1 := first_cmdline p o in
  let c2 := second_cmdline p o in
  let (rc1, w1) := spawn c1 w in
  if (rc1 =? 0)%Z then
    let (rc2, w2) := spawn c2 w1 in
    if (rc2 =? 0)%Z then
      match store (internal_s_path o) internal_s_text w2 with
      | Some w3 =>
          match store (internal_go_path o) (internal_go_text g) w3 with
          | Some w4 =>
              (Return tt,
               {| world := w4;
                  trace := [LogDebug c1; CheckCall c1; CheckCall c2;
                            FileWrite (internal_s_path o) internal_s_text;
                            FileWrite (internal_go_path o) (internal_go_text g)] |})
          | None =>
              (Raise (OSError (internal_go_path o)),
               {| world := w3;
                  trace := [LogDebug c1; CheckCall c1; CheckCall c2;
                            FileWrite (internal_s_path o) internal_s_text] |})
          end
      | None =>
          (Raise (OSError (internal_s_path o)),
           {| world := w2; trace := [LogDebug c1; CheckCall c1; CheckCall c2] |})
      end
    else
      (Raise (CalledProcessError rc2 c2),
       {| world := w2; trace := [LogDebug c1; CheckCall c1; CheckCall c2] |})
  else
    (Raise (CalledProcessError rc1 c1),
     {| world := w1; trace := [LogDebug c1; CheckCall c1] |}).

End Driver.

Arguments world {World} s.
Arguments trace {World} s.
Arguments init {World} w.
Arguments run {World} spawn store p w.
Arguments main {World} spawn store p _.
Arguments generate {World} spawn store p o g w.

(** ** Reading a run *)

(** The value the loop ends with for a flag: the group of the last argument
    that matches it. *)
Fixpoint flag_value (flag : string) (argv : list string) : option string :=
  match argv with
  | [] => None
  | a :: rest =>
      match flag_value flag rest with
      | Some g => Some g
      | None => Re.match_flag flag a
      end
  end.

(** A flag is not supplied when no argument matches it, or the value it
    ends with is the empty string. *)
Definition not_supplied (flag : string) (argv : list string) : Prop :=
  Forall (fun a => is_flag flag a = false) argv \/ flag_value flag argv = Some "".

(** The command lines handed to [subprocess.check_call], in order. *)
Fixpoint calls (tr : list event) : list (list string) :=
  match tr with
  | [] => []
  | CheckCall c :: tr' => c :: calls tr'
  | _ :: tr' => calls tr'
  end.

(** The files written by the script itself, in order. *)
Fixpoint writes (tr : list event) : list (string * string) :=
  match tr with
  | [] => []
  | FileWrite path content :: tr' => (path, content) :: writes tr'
  | _ :: tr' => writes tr'
  end.

(** The command lines logged with [logging.debug], in order. *)
Fixpoint logs (tr : list event) : list (list string) :=
  match tr with
  | [] => []
  | LogDebug c :: tr' => c :: logs tr'
  | _ :: tr' => logs tr'
  end.

(** The arguments the script of an expansion command line gets before the
    template: all but the interpreter, the script and the last one. *)
Definition script_options (cmdline : list string) : list string :=
  removelast (skipn 2 cmdline).

(** The part of an expansion command line between the [--output=] argument
    and the template. *)
Definition forwarded (cmdline : list string) : list string :=
  removelast (skipn 3 cmdline).

(** Modelled from the spec: the template-expansion engine ([generate.py],
    which is not part of the sources at hand) produces its source text at
    the output path it is given; the driver hands it over as the first
    argument of the script, after [--output=]. *)
Definition engine_outputs (cmdline : list string) : list string :=
  match cmdline with
  | _ :: _ :: a :: _ =>
      match PyStr.removeprefix "--output=" a with
      | Some path => [path]
      | None => []
      end
  | _ => []
  end.

(** The paths of the files an invocation puts out, in order: those of the
    expansions and those the script writes. *)
Fixpoint output_paths (tr : list event) : list string :=
  match tr with
  | [] => []
  | CheckCall c :: tr' => engine_outputs c ++ output_paths tr'
  | FileWrite path _ :: tr' => path :: output_paths tr'
  | LogDebug _ :: tr' => output_paths tr'
  end.

(** ** Where a path leads

    Pathname resolution, as far as it can be read off the text of a path:
    whether it starts at the root, and its components, where empty
    components (doubled or trailing slashes) and [.] do not count.  Two
    paths with the same location name the same file. *)

Definition location : Type := bool * list string.

Definition is_abs (p : string) : bool := PyStr.startswith p "/".

Definition skipped (c : string) : bool := ((c =? "") || (c =? "."))%string.

Definition components (p : string) : list string :=
  filter (fun c => negb (skipped c)) (PyStr.split PosixPath.sep p).

Definition locate (p : string) : location := (is_abs p, components p).

(** The directory a location lies in. *)
Definition parent (l : location) : location := (fst l, removelast (snd l)).

(** The location of a file named [name] in the directory of [o]. *)
Definition beside (o name : string) : location :=
  (fst (locate (PosixPath.head_of o)), snd (locate (PosixPath.head_of o)) ++ [name]).

Definition location_eq_dec (a b : location) : {a = b} + {a <> b}.
Proof. decide equality; [apply (list_eq_dec string_dec) | apply bool_dec]. Defined.

(** The number of distinct files among some paths. *)
Definition count_files (paths : list string) : nat :=
  length (nodup location_eq_dec (map locate paths)).

(** ** Sample processes *)

Definition always_ok : list string -> unit -> Z * unit := fun _ w => (0%Z, w).
Definition always_fail : list string -> unit -> Z * unit := fun _ w => (1%Z, w).
Definition disk_ok : string -> string -> unit -> option unit := fun _ _ w => Some w.

(** A world that counts the sub-processes started: the first exits with
    status 0, the next with status 1. *)
Definition second_fails : list string -> nat -> Z * nat := fun _ n => (Z.of_nat n, S n).
Definition disk_ok_nat : string -> string -> nat -> option nat := fun _ _ n => Some n.

Definition bare_proc : process :=
  {| argv0 := "../gtl/generate_randomized_freepool.py";
     args := ["--output=d/int_freepool"; "-DELEM=[]int"];
     executable := "/usr/bin/python3.6" |}.

Definition ex_proc : process :=
  {| argv0 := "../gtl/generate_randomized_freepool.py";
     args := ["--output=d/int_freepool"; "--prefix=ints"; "-DELEM=[]int"; "--package=tests"];
     executable := "/usr/bin/python3.6" |}.

Definition clash_proc : process :=
  {| argv0 := "../gtl/generate_randomized_freepool.py";
     args := ["--output=d/randomized_freepool_internal"; "-DELEM=[]int"; "--package=tests"];
     executable := "/usr/bin/python3.6" |}.

(** ** Facts about strings *)

Module StrFacts.
Import PyStr.

Lemma append_empty_r (s : string) : (s ++ "")%string = s.
Proof. induction s as [|a s IH]; simpl; [reflexivity | now rewrite IH]. Qed.

Lemma append_assoc (a b c : string) : ((a ++ b) ++ c = a ++ (b ++ c))%string.
Proof. induction a as [|x a IH]; simpl; [reflexivity | now rewrite IH]. Qed.

Lemma append_eq_empty (a b : string) : (a ++ b)%string = "" -> a = "" /\ b = "".
Proof. destruct a; simpl; [auto | discriminate]. Qed.

Lemma append_inv_head (a b c : string) : (a ++ b = a ++ c)%string -> b = c.
Proof.
  induction a as [|x a IH]; simpl; intros H; [exact H | injection H; auto].
Qed.

Lemma length_append (a b : string) :
  String.length (a ++ b) = String.length a + String.length b.
Proof. induction a as [|x a IH]; simpl; [reflexivity | now rewrite IH]. Qed.

Lemma removeprefix_append (pre s : string) : removeprefix pre (pre ++ s) = Some s.
Proof.
  induction pre as [|a pre IH]; simpl; [reflexivity|].
  now rewrite Ascii.eqb_refl.
Qed.

Lemma removeprefix_Some (pre s r : string) :
  removeprefix pre s = Some r -> s = (pre ++ r)%string.
Proof.
  revert s; induction pre as [|a pre IH]; intros s; simpl.
  - now intros [= ->].
  - destruct s as [|b s]; [discriminate|].
    destruct (Ascii.eqb_spec a b) as [->|]; [|discriminate].
    intros H; now rewrite (IH _ H).
Qed.

Lemma startswith_append (pre s : string) : startswith (pre ++ s) pre = true.
Proof. unfold startswith; now rewrite removeprefix_append. Qed.

Lemma contains_append (c : ascii) (a b : string) :
  contains c (a ++ b) = contains c a || contains c b.
Proof.
  induction a as [|x a IH]; simpl; [reflexivity|].
  now rewrite IH, orb_assoc.
Qed.

(** Every string either has no [c], or splits at its last [c]. *)
Lemma last_occurrence (c : ascii) (s : string) :
  contains c s = false \/
  exists h b, s = (h ++ String c b)%string /\ contains c b = false.
Proof.
  induction s as [|a s IH]; simpl; [now left|].
  destruct IH as [IH | (h & b & -> & Hb)].
  - destruct (Ascii.eqb_spec a c) as [->|Hne]; simpl.
    + right; exists "", s; auto.
    + now left.
  - right; exists (String a h), b; auto.
Qed.

Lemma rfind_from_absent (c : ascii) (s : string) (i last : Z) :
  contains c s = false -> rfind_from c s i last = last.
Proof.
  revert i last; induction s as [|a s IH]; intros i last; simpl; [reflexivity|].
  intros H; apply orb_false_iff in H as [Ha Hs].
  now rewrite Ha, IH.
Qed.

Lemma rfind_from_last (c : ascii) (h b : string) (i last : Z) :
  contains c b = false ->
  rfind_from c (h ++ String c b) i last = (i + Z.of_nat (String.length h))%Z.
Proof.
  intros Hb; revert i last; induction h as [|a h IH]; intros i last; simpl.
  - rewrite Ascii.eqb_refl, rfind_from_absent by assumption. lia.
  - rewrite IH. lia.
Qed.

Lemma take_append (a b : string) : take (String.length a) (a ++ b) = a.
Proof. induction a as [|x a IH]; simpl; [now destruct b | now rewrite IH]. Qed.

Lemma drop_append (a b : string) : drop (String.length a) (a ++ b) = b.
Proof. induction a as [|x a IH]; simpl; [reflexivity | assumption]. Qed.

Lemma split_not_nil (c : ascii) (s : string) : split c s <> [].
Proof.
  induction s as [|a s IH]; simpl; [discriminate|].
  destruct (split c s); [congruence|]. destruct (Ascii.eqb a c); discriminate.
Qed.

Lemma split_absent (c : ascii) (s : string) :
  contains c s = false -> split c s = [s].
Proof.
  induction s as [|a s IH]; simpl; [reflexivity|].
  intros H; apply orb_false_iff in H as [Ha Hs].
  now rewrite (IH Hs), Ha.
Qed.

(** [split] cuts at every separator. *)
Lemma split_append_sep (c : ascii) (a b : string) :
  split c (a ++ String c b) = split c a ++ split c b.
Proof.
  induction a as [|x a IH]; simpl.
  - rewrite Ascii.eqb_refl. destruct (split c b) eqn:E; [now apply split_not_nil in E | reflexivity].
  - rewrite IH. destruct (split c a) eqn:E; [now apply split_not_nil in E|].
    simpl. now destruct (Ascii.eqb x c).
Qed.

Lemma rstrip_absent_last (c : ascii) (s : string) :
  rstrip c (s ++ String c "") = rstrip c s.
Proof.
  induction s as [|a s IH]; simpl.
  - now rewrite Ascii.eqb_refl.
  - now rewrite IH.
Qed.

Lemma rstrip_all_eq (c : ascii) (s : string) :
  all_eq c s = true <-> rstrip c s = "".
Proof.
  induction s as [|a s IH]; simpl; [tauto|].
  destruct (rstrip c s) eqn:E.
  - destruct (Ascii.eqb a c); simpl; [tauto|]. split; discriminate.
  - split; [|discriminate]. intros H; apply andb_true_iff in H as [_ H].
    apply IH in H; discriminate.
Qed.

End StrFacts.

(** ** Facts about paths *)

Module PathFacts.
Import PyStr PosixPath StrFacts.

Lemma head_of_absent (p : string) :
  contains sep p = false -> head_of p = "" /\ basename p = p.
Proof.
  intros H; unfold head_of, basename, rfind.
  rewrite rfind_from_absent by assumption; simpl.
  split; [now destruct p | reflexivity].
Qed.

Lemma head_of_last (h b : string) :
  contains sep b = false ->
  head_of (h ++ String sep b) = (h ++ String sep "")%string /\
  basename (h ++ String sep b) = b.
Proof.
  intros H; unfold head_of, basename, rfind.
  rewrite rfind_from_last by assumption.
  replace (Z.to_nat (0 + Z.of_nat (String.length h) + 1))
    with (String.length (h ++ String sep "")) by (rewrite length_append; simpl; lia).
  replace (h ++ String sep b)%string with ((h ++ String sep "") ++ b)%string
    by (now rewrite append_assoc).
  now rewrite take_append, drop_append.
Qed.

(** A path is its head followed by its base name, and the base name has no
    separator. *)
Lemma head_basename (p : string) :
  p = (head_of p ++ basename p)%string /\ contains sep (basename p) = false.
Proof.
  destruct (last_occurrence sep p) as [H | (h & b & -> & Hb)].
  - destruct (head_of_absent p H) as [-> ->]; auto.
  - destruct (head_of_last h b Hb) as [-> ->].
    now rewrite append_assoc.
Qed.

Lemma head_of_append (p sfx : string) :
  contains sep sfx = false ->
  head_of (p ++ sfx) = head_of p /\ basename (p ++ sfx) = (basename p ++ sfx)%string.
Proof.
  intros Hs.
  destruct (last_occurrence sep p) as [H | (h & b & -> & Hb)].
  - destruct (head_of_absent p H) as [-> ->].
    apply head_of_absent. now rewrite contains_append, H, Hs.
  - destruct (head_of_last h b Hb) as [-> ->].
    rewrite append_assoc; simpl.
    apply head_of_last. now rewrite contains_append, Hb, Hs.
Qed.

Lemma is_abs_cons (a : ascii) (s : string) : is_abs (String a s) = Ascii.eqb "/" a.
Proof.
  unfold is_abs, startswith. cbn [removeprefix].
  now destruct (Ascii.eqb "/" a).
Qed.

Lemma is_abs_append (a b : string) : a <> "" -> is_abs (a ++ b) = is_abs a.
Proof. destruct a as [|x a]; [congruence|]. intros _; simpl. now rewrite !is_abs_cons. Qed.

Lemma components_absent (s : string) :
  contains sep s = false -> components s = if skipped s then [] else [s].
Proof.
  intros H; unfold components. rewrite split_absent by assumption; simpl.
  now destruct (skipped s).
Qed.

Lemma components_append_sep (a b : string) :
  components (a ++ String sep b) = components a ++ components b.
Proof. unfold components. now rewrite split_append_sep, filter_app. Qed.

Lemma components_all_sep (t : string) : all_eq sep t = true -> components t = [].
Proof.
  induction t as [|a t IH]; simpl; [reflexivity|].
  intros H; apply andb_true_iff in H as [Ha Ht].
  apply Ascii.eqb_eq in Ha as ->.
  change (String sep t) with ("" ++ String sep t)%string.
  now rewrite components_append_sep, (IH Ht).
Qed.

Lemma rstrip_decompose (c : ascii) (s : string) :
  exists t, s = (rstrip c s ++ t)%string /\ all_eq c t = true.
Proof.
  induction s as [|a s (t & Hs & Ht)]; simpl; [now exists ""|].
  destruct (rstrip c s) eqn:E.
  - simpl in Hs; subst t.
    destruct (Ascii.eqb a c) eqn:Ea.
    + exists (String a s); simpl. now rewrite Ea, Ht.
    + now exists s.
  - exists t; split; [|assumption].
    change (String a s = String a (String a0 s0 ++ t)). now f_equal.
Qed.

Lemma components_all_sep_after (r t : string) :
  all_eq sep t = true -> components (r ++ t) = components r.
Proof.
  destruct t as [|a t]; simpl; [now rewrite append_empty_r|].
  intros H; apply andb_true_iff in H as [Ha Ht].
  apply Ascii.eqb_eq in Ha as ->.
  now rewrite components_append_sep, (components_all_sep t Ht), app_nil_r.
Qed.

Lemma components_rstrip (s : string) : components (rstrip sep s) = components s.
Proof.
  destruct (rstrip_decompose sep s) as (t & Hs & Ht).
  rewrite Hs at 2. now rewrite components_all_sep_after.
Qed.

Lemma is_abs_rstrip (s : string) : rstrip sep s <> "" -> is_abs (rstrip sep s) = is_abs s.
Proof.
  destruct s as [|a s]; simpl; [congruence|].
  destruct (rstrip sep s); [destruct (Ascii.eqb a sep); [congruence|]|];
    intros _; now rewrite !is_abs_cons.
Qed.

(** [dirname] leads where the head of the path leads. *)
Lemma locate_dirname (p : string) : locate (dirname p) = locate (head_of p).
Proof.
  unfold dirname. destruct (head_of p) as [|a h] eqn:E; [reflexivity|].
  destruct (all_eq sep (String a h)) eqn:Hall; [reflexivity|].
  unfold locate. rewrite components_rstrip, is_abs_rstrip; [reflexivity|].
  intros H; apply rstrip_all_eq in H; congruence.
Qed.

Lemma dirname_empty (p : string) : dirname p = "" <-> head_of p = "".
Proof.
  unfold dirname. destruct (head_of p) as [|a h] eqn:E; [tauto|].
  destruct (all_eq sep (String a h)) eqn:Hall; [tauto|].
  split; [|discriminate]. intros H; apply rstrip_all_eq in H; congruence.
Qed.

Lemma output_dir_not_empty (o : string) : output_dir_of o <> "".
Proof.
  unfold output_dir_of. destruct (dirname o) eqn:E; discriminate.
Qed.

Lemma locate_output_dir (o : string) : locate (output_dir_of o) = locate (head_of o).
Proof.
  unfold output_dir_of. destruct (dirname o) eqn:E.
  - apply dirname_empty in E. now rewrite E.
  - rewrite <- E. apply locate_dirname.
Qed.

Lemma skipped_short (s : string) : skipped s = true -> String.length s <= 1.
Proof.
  unfold skipped. intros H; apply orb_true_iff in H as [H|H];
    apply String.eqb_eq in H; subst; simpl; lia.
Qed.

(** A file name put after a directory. *)
Lemma locate_in_dir (d name : string) :
  d <> "" -> contains sep name = false -> skipped name = false ->
  locate (d ++ "/" ++ name) = (fst (locate d), snd (locate d) ++ [name]).
Proof.
  intros Hd Hn Hk. unfold locate; simpl. f_equal.
  - now apply is_abs_append.
  - change ("/" ++ name)%string with (String sep name).
    now rewrite components_append_sep, (components_absent name Hn), Hk.
Qed.

(** A path with something added to its base name. *)
Lemma locate_with_suffix (p sfx : string) :
  contains sep sfx = false -> skipped (basename p ++ sfx) = false ->
  locate (p ++ sfx) =
  (fst (locate (head_of p)), snd (locate (head_of p)) ++ [(basename p ++ sfx)%string]).
Proof.
  intros Hs Hk.
  destruct (last_occurrence sep p) as [H | (h & b & -> & Hb)].
  - destruct (head_of_absent p H) as [Hh Hbn]. rewrite Hh, Hbn in *.
    unfold locate; simpl. f_equal.
    + destruct p as [|a p]; simpl.
      * destruct sfx as [|c sfx]; [reflexivity|].
        rewrite is_abs_cons. simpl in Hs. apply orb_false_iff in Hs as [Hc _].
        rewrite Ascii.eqb_sym. exact Hc.
      * rewrite is_abs_cons. simpl in H. apply orb_false_iff in H as [Ha _].
        rewrite Ascii.eqb_sym. exact Ha.
    + rewrite components_absent by (now rewrite contains_append, H, Hs).
      now rewrite Hk.
  - destruct (head_of_last h b Hb) as [Hh Hbn]. rewrite Hh, Hbn in *.
    rewrite append_assoc; simpl.
    unfold locate; simpl. f_equal.
    + destruct h as [|x h]; [reflexivity|].
      simpl. now rewrite !is_abs_cons.
    + rewrite !components_append_sep.
      rewrite (components_absent (b ++ sfx)) by (now rewrite contains_append, Hb, Hs).
      rewrite Hk. now rewrite (components_absent ""), app_nil_r.
Qed.

End PathFacts.

(** ** Facts about the argument loop *)

Module ArgFacts.
Import PyStr Re StrFacts.

Lemma dot_star_no_LF (s : string) : contains LF (dot_star s) = false.
Proof.
  induction s as [|a s IH]; simpl; [reflexivity|].
  destruct (Ascii.eqb a LF) eqn:E; simpl; [reflexivity | now rewrite E].
Qed.

Lemma dot_star_one_line (s : string) : contains LF s = false -> dot_star s = s.
Proof.
  induction s as [|a s IH]; simpl; [reflexivity|].
  intros H; apply orb_false_iff in H as [Ha Hs]. now rewrite Ha, IH.
Qed.

Lemma match_flag_is_flag (flag a : string) :
  is_flag flag a = match match_flag flag a with Some _ => true | None => false end.
Proof. unfold is_flag, startswith, match_flag. now destruct (removeprefix flag a). Qed.

Lemma match_flag_append (flag v : string) :
  match_flag flag (flag ++ v) = Some (dot_star v).
Proof. unfold match_flag. now rewrite removeprefix_append. Qed.

Lemma flag_value_app (flag : string) (pre post : list string) :
  flag_value flag (pre ++ post) =
  match flag_value flag post with
  | Some g => Some g
  | None => flag_value flag pre
  end.
Proof.
  induction pre as [|a pre IH]; simpl.
  - now destruct (flag_value flag post).
  - rewrite IH. now destruct (flag_value flag post).
Qed.

Lemma flag_value_absent (flag : string) (argv : list string) :
  flag_value flag argv = None <-> Forall (fun a => is_flag flag a = false) argv.
Proof.
  induction argv as [|a argv IH]; simpl.
  - split; [constructor | reflexivity].
  - rewrite Forall_cons_iff, <- IH, match_flag_is_flag.
    destruct (flag_value flag argv), (match_flag flag a); intuition congruence.
Qed.

(** The loop, started from any values of its three variables. *)
Lemma parse_fold (argv : list string) (st : parsed) :
  fold_left parse_arg argv st =
  {| output := match flag_value "--output=" argv with
               | Some g => Some g
               | None => output st
               end;
     package := match flag_value "--package=" argv with
                | Some g => Some g
                | None => package st
                end;
     generate_argv :=
       generate_argv st ++ filter (fun a => negb (is_flag "--output=" a)) argv |}.
Proof.
  revert st; induction argv as [|a argv IH]; intros st.
  - simpl. rewrite app_nil_r. now destruct st.
  - cbn [fold_left flag_value filter]. rewrite IH.
    rewrite (match_flag_is_flag "--output=" a).
    unfold parse_arg.
    destruct (match_flag "--output=" a), (match_flag "--package=" a),
      (flag_value "--output=" argv), (flag_value "--package=" argv);
      cbn [output package generate_argv negb]; rewrite <- ?app_assoc; reflexivity.
Qed.

Lemma parse_args_spec (argv : list string) :
  parse_args argv =
  {| output := flag_value "--output=" argv;
     package := flag_value "--package=" argv;
     generate_argv := filter (fun a => negb (is_flag "--output=" a)) argv |}.
Proof.
  unfold parse_args. rewrite parse_fold; simpl.
  now destruct (flag_value "--output=" argv), (flag_value "--package=" argv).
Qed.

(** The last occurrence of a flag gives its value. *)
Lemma flag_value_last (flag v : string) (pre post : list string) :
  Forall (fun a => is_flag flag a = false) post ->
  flag_value flag (pre ++ (flag ++ v)%string :: post) = Some (dot_star v).
Proof.
  intros H. apply flag_value_absent in H.
  rewrite flag_value_app; simpl. now rewrite H, match_flag_append.
Qed.

Lemma flag_value_one_line (flag : string) (argv : list string) (g : string) :
  flag_value flag argv = Some g -> contains LF g = false.
Proof.
  induction argv as [|a argv IH]; simpl; [discriminate|].
  destruct (flag_value flag argv); [auto|].
  unfold match_flag. destruct (removeprefix flag a); simpl; [|discriminate].
  intros [= <-]. apply dot_star_no_LF.
Qed.

Lemma not_supplied_falsy (flag : string) (argv : list string) :
  not_supplied flag argv <-> truthy (flag_value flag argv) = false.
Proof.
  unfold not_supplied. rewrite <- flag_value_absent.
  destruct (flag_value flag argv) as [[|a g]|]; simpl; intuition congruence.
Qed.

Lemma supplied_value (flag : string) (argv : list string) :
  ~ not_supplied flag argv -> exists g, flag_value flag argv = Some g /\ g <> "".
Proof.
  rewrite not_supplied_falsy.
  destruct (flag_value flag argv) as [[|a g]|]; simpl; intros H; try congruence.
  eexists; split; [reflexivity | discriminate].
Qed.

End ArgFacts.

(** ** Facts about a run *)

Section RunFacts.

Context {World : Type}.
Variable spawn : list string -> World -> Z * World.
Variable store : string -> string -> World -> option World.

Local Abbreviation exec := (run spawn store).

Lemma run_unset (p : process) (w : World) :
  PyStr.truthy (flag_value "--output=" (args p)) = false \/
  PyStr.truthy (flag_value "--package=" (args p)) = false ->
  exec p w = (Raise (Exception "--output and --package not set"), init w).
Proof.
  unfold run, main. rewrite ArgFacts.parse_args_spec; cbn [output package generate_argv].
  destruct (flag_value "--output=" (args p)) as [[|a o]|],
           (flag_value "--package=" (args p)) as [[|b g]|];
    simpl; intros [H|H]; try discriminate; reflexivity.
Qed.

Lemma run_set (p : process) (w : World) (o g : string) :
  flag_value "--output=" (args p) = Some o -> o <> "" ->
  flag_value "--package=" (args p) = Some g -> g <> "" ->
  exec p w = generate spawn store p o g w.
Proof.
  intros Ho Hne Hg Hng.
  unfold run, main. rewrite ArgFacts.parse_args_spec; cbn [output package generate_argv].
  rewrite Ho, Hg. destruct o as [|a o]; [congruence|]. destruct g as [|b g]; [congruence|].
  unfold generate, bind, log_debug, check_call, write_file, emit, init,
    first_cmdline, second_cmdline, internal_s_path, internal_go_path.
  cbv zeta. cbn [world trace app].
  destruct (spawn _ w) as [rc1 w1]. cbn [world trace app].
  destruct (rc1 =? 0)%Z; [|reflexivity]. cbn [world trace app].
  destruct (spawn _ w1) as [rc2 w2]. cbn [world trace app].
  destruct (rc2 =? 0)%Z; [|reflexivity]. cbn [world trace app].
  destruct (store _ _ w2) as [w3|]; [|reflexivity]. cbn [world trace app].
  destruct (store _ _ w3) as [w4|]; reflexivity.
Qed.

End RunFacts.

(** ** Further facts: ends of strings, lines, file names *)

Module TextFacts.
Import PyStr PosixPath StrFacts PathFacts.

Lemma append_inv_tail (a b c : string) : (a ++ c = b ++ c)%string -> a = b.
Proof.
  revert b; induction a as [|x a IH]; intros [|y b] H; simpl in H.
  - reflexivity.
  - apply (f_equal String.length) in H; simpl in H; rewrite length_append in H; lia.
  - apply (f_equal String.length) in H; simpl in H; rewrite length_append in H; lia.
  - injection H as -> H. now rewrite (IH b H).
Qed.

Lemma endswith_char_append (a b : string) (c : ascii) :
  b <> "" -> endswith_char (a ++ b) c = endswith_char b c.
Proof.
  intros Hb; induction a as [|x a IH]; [reflexivity|].
  cbn [append endswith_char]. rewrite IH.
  destruct (a ++ b)%string eqn:E; [|reflexivity].
  apply append_eq_empty in E as [_ E]; congruence.
Qed.

(** The lines of a text made of lines. *)
Lemma split_unlines (ls : list string) :
  Forall (fun l => contains LF l = false) ls ->
  split LF (unlines ls) = ls ++ [""].
Proof.
  induction 1 as [|l ls Hl _ IH]; simpl; [reflexivity|].
  now rewrite split_append_sep, (split_absent LF l Hl), IH.
Qed.

Lemma basename_in_dir (d name : string) :
  contains sep name = false -> basename (d ++ "/" ++ name) = name.
Proof. intros H. now apply (head_of_last d name). Qed.

Lemma dirname_empty_iff (p : string) : dirname p = "" <-> contains sep p = false.
Proof.
  rewrite dirname_empty. split.
  - intros H. destruct (last_occurrence sep p) as [Hc | (h & b & -> & Hb)]; [exact Hc|].
    destruct (head_of_last h b Hb) as [Hh _]. rewrite Hh in H.
    apply append_eq_empty in H as [_ H]; discriminate.
  - intros H. now apply head_of_absent.
Qed.

Lemma output_dir_cases (o : string) :
  (contains sep o = false -> output_dir_of o = ".") /\
  (contains sep o = true -> output_dir_of o = dirname o /\ dirname o <> "").
Proof.
  unfold output_dir_of. split; intros H.
  - apply dirname_empty_iff in H. now rewrite H.
  - destruct (dirname o) eqn:E; [|split; [reflexivity | discriminate]].
    apply dirname_empty_iff in E. congruence.
Qed.

End TextFacts.

(** ** The driver's properties *)

Section Claims.

Context {World : Type}.
Variable spawn : list string -> World -> Z * World.
Variable store : string -> string -> World -> option World.

Local Abbreviation exec := (run spawn store).

(** C1: when [--package] or [--output] is missing, or ends with an empty
    value, the driver raises its configuration error, and has then started
    no template expansion and written no file: the trace is empty and the
    world untouched. *)
Theorem missing_flag_is_fatal (p : process) (w : World) :
  not_supplied "--package=" (args p) \/ not_supplied "--output=" (args p) ->
  exec p w = (Raise (Exception "--output and --package not set"), init w) /\
  calls (trace (snd (exec p w))) = [] /\
  writes (trace (snd (exec p w))) = [] /\
  output_paths (trace (snd (exec p w))) = [].
Proof.
  intros H.
  assert (E : exec p w = (Raise (Exception "--output and --package not set"), init w)).
  { apply run_unset. rewrite <- !ArgFacts.not_supplied_falsy. tauto. }
  rewrite E. repeat split.
Qed.

(** C9: of several [--package=] (or [--output=]) arguments the last one
    gives the value used, which is its text after the [=] (up to a line
    feed, if it has one); and when that last one is the bare [--package=]
    (or [--output=]), the value is empty and the driver raises the error of
    a missing flag. *)
Theorem last_occurrence_decides (pre post : list string) (v : string) :
  (Forall (fun a => is_flag "--package=" a = false) post ->
   package (parse_args (pre ++ ("--package=" ++ v)%string :: post)) = Some (Re.dot_star v)) /\
  (Forall (fun a => is_flag "--output=" a = false) post ->
   output (parse_args (pre ++ ("--output=" ++ v)%string :: post)) = Some (Re.dot_star v)) /\
  (forall p w,
     (args p = pre ++ "--package="%string :: post /\
      Forall (fun a => is_flag "--package=" a = false) post) \/
     (args p = pre ++ "--output="%string :: post /\
      Forall (fun a => is_flag "--output=" a = false) post) ->
     exec p w = (Raise (Exception "--output and --package not set"), init w)).
Proof.
  repeat split.
  - intros H. rewrite ArgFacts.parse_args_spec; cbn [package].
    now apply (ArgFacts.flag_value_last "--package=").
  - intros H. rewrite ArgFacts.parse_args_spec; cbn [output].
    now apply (ArgFacts.flag_value_last "--output=").
  - intros p w [[E H] | [E H]]; apply run_unset; rewrite E.
    + right. pose proof (ArgFacts.flag_value_last "--package=" "" pre post H) as L.
      cbn [append Re.dot_star] in L. now rewrite L.
    + left. pose proof (ArgFacts.flag_value_last "--output=" "" pre post H) as L.
      cbn [append Re.dot_star] in L. now rewrite L.
Qed.

Lemma forwarded_generate_cmdline (p : process) (d o sfx : string)
    (argv : list string) (tpl : string) :
  forwarded (generate_cmdline p d o sfx argv tpl) = argv.
Proof. unfold forwarded, generate_cmdline; simpl. apply removelast_last. Qed.

Lemma calls_generate (p : process) (o g : string) (w : World) :
  calls (trace (snd (generate spawn store p o g w))) =
  if (fst (spawn (first_cmdline p o) w) =? 0)%Z
  then [first_cmdline p o; second_cmdline p o]
  else [first_cmdline p o].
Proof.
  unfold generate.
  destruct (spawn (first_cmdline p o) w) as [rc1 w1]; simpl.
  destruct (rc1 =? 0)%Z; [|reflexivity].
  destruct (spawn (second_cmdline p o) w1) as [rc2 w2].
  destruct (rc2 =? 0)%Z; [|reflexivity].
  destruct (store _ _ w2) as [w3|]; [|reflexivity].
  destruct (store _ _ w3) as [w4|]; reflexivity.
Qed.

(** Either a flag is not supplied and the run is the error, or both values
    are there and the run is [generate]. *)
Lemma run_cases (p : process) (w : World) :
  exec p w = (Raise (Exception "--output and --package not set"), init w) \/
  exists o g,
    flag_value "--output=" (args p) = Some o /\ o <> "" /\
    flag_value "--package=" (args p) = Some g /\ g <> "" /\
    exec p w = generate spawn store p o g w.
Proof.
  destruct (PyStr.truthy (flag_value "--output=" (args p))) eqn:Eo.
  - destruct (PyStr.truthy (flag_value "--package=" (args p))) eqn:Eg.
    + right.
      destruct (flag_value "--output=" (args p)) as [[|a o]|] eqn:Ho; try discriminate.
      destruct (flag_value "--package=" (args p)) as [[|b g]|] eqn:Hg; try discriminate.
      exists (String a o), (String b g).
      repeat split; try discriminate. apply run_set; auto; discriminate.
    + left; apply run_unset; auto.
  - left; apply run_unset; auto.
Qed.

(** C2, as the code has it: the arguments forwarded to each template
    expansion are exactly the arguments that are not [--output=...] flags,
    verbatim and in their order; [--package=...] arguments are among them.
    With both flags supplied there is such an expansion. *)
Theorem forwarded_arguments (p : process) (w : World) :
  Forall (fun c => forwarded c = filter (fun a => negb (is_flag "--output=" a)) (args p))
         (calls (trace (snd (exec p w)))) /\
  (~ not_supplied "--package=" (args p) -> ~ not_supplied "--output=" (args p) ->
   calls (trace (snd (exec p w))) <> []).
Proof.
  split.
  - destruct (run_cases p w) as [E | (o & g & Ho & Hno & Hg & Hng & E)]; rewrite E.
    + constructor.
    + rewrite calls_generate.
      destruct (_ =? _)%Z; repeat constructor; apply forwarded_generate_cmdline.
  - intros Hp Hq.
    destruct (ArgFacts.supplied_value _ _ Hp) as (g & Hg & Hng).
    destruct (ArgFacts.supplied_value _ _ Hq) as (o & Ho & Hno).
    rewrite (run_set spawn store p w o g Ho Hno Hg Hng), calls_generate.
    destruct (_ =? _)%Z; discriminate.
Qed.

(** C3, as the code has it: with both flags set, the driver first runs the
    engine on [--output=<output>.go] and the template
    [randomized_freepool.go.tpl]; when that expansion exits with status
    zero it runs it once more, on [--output=<output>_race.go] and
    [randomized_freepool_race.go.tpl], two invocations in all; when it does
    not, the first invocation is the only one. *)
Theorem two_expansions (p : process) (w : World) (o g : string) :
  flag_value "--output=" (args p) = Some o -> o <> "" ->
  flag_value "--package=" (args p) = Some g -> g <> "" ->
  let gtl_dir := PosixPath.dirname (argv0 p) in
  let argv := filter (fun a => negb (is_flag "--output=" a)) (args p) in
  let c1 := [executable p; PosixPath.join gtl_dir "generate.py";
             ("--output=" ++ o ++ ".go")%string]
            ++ argv ++ [PosixPath.join gtl_dir "randomized_freepool.go.tpl"] in
  let c2 := [executable p; PosixPath.join gtl_dir "generate.py";
             ("--output=" ++ o ++ "_race.go")%string]
            ++ argv ++ [PosixPath.join gtl_dir "randomized_freepool_race.go.tpl"] in
  calls (trace (snd (exec p w))) =
    (if (fst (spawn c1 w) =? 0)%Z then [c1; c2] else [c1]) /\
  engine_outputs c1 = [(o ++ ".go")%string] /\
  engine_outputs c2 = [(o ++ "_race.go")%string].
Proof.
  intros Ho Hno Hg Hng gtl_dir argv c1 c2.
  rewrite (run_set spawn store p w o g Ho Hno Hg Hng), calls_generate.
  repeat split.
Qed.

(** C4: a template expansion that exits with a nonzero status ends the run
    with [CalledProcessError]; after a failed first expansion the second
    is not started, and after either failure no file is written: the trace
    ends with the failed call. *)
Theorem failed_expansion_is_fatal (p : process) (w : World) (o g : string) :
  flag_value "--output=" (args p) = Some o -> o <> "" ->
  flag_value "--package=" (args p) = Some g -> g <> "" ->
  let c1 := first_cmdline p o in
  let c2 := second_cmdline p o in
  (forall rc1 w1, spawn c1 w = (rc1, w1) -> rc1 <> 0%Z ->
     exec p w = (Raise (CalledProcessError rc1 c1),
                 {| world := w1; trace := [LogDebug c1; CheckCall c1] |}) /\
     calls (trace (snd (exec p w))) = [c1] /\
     writes (trace (snd (exec p w))) = []) /\
  (forall w1 rc2 w2, spawn c1 w = (0%Z, w1) -> spawn c2 w1 = (rc2, w2) -> rc2 <> 0%Z ->
     exec p w = (Raise (CalledProcessError rc2 c2),
                 {| world := w2; trace := [LogDebug c1; CheckCall c1; CheckCall c2] |}) /\
     calls (trace (snd (exec p w))) = [c1; c2] /\
     writes (trace (snd (exec p w))) = []).
Proof.
  intros Ho Hno Hg Hng c1 c2.
  rewrite (run_set spawn store p w o g Ho Hno Hg Hng). unfold generate.
  fold c1 c2. split.
  - intros rc1 w1 E Hrc. rewrite E.
    apply Z.eqb_neq in Hrc. rewrite Hrc. repeat split.
  - intros w1 rc2 w2 E1 E2 Hrc. rewrite E1. cbn [Z.eqb]. rewrite E2.
    apply Z.eqb_neq in Hrc. rewrite Hrc. repeat split.
Qed.

(** A run that returns has made both calls and written both files. *)
Lemma generate_returns (p : process) (o g : string) (w : World) :
  fst (generate spawn store p o g w) = Return tt ->
  trace (snd (generate spawn store p o g w)) =
  [LogDebug (first_cmdline p o); CheckCall (first_cmdline p o);
   CheckCall (second_cmdline p o);
   FileWrite (internal_s_path o) internal_s_text;
   FileWrite (internal_go_path o) (internal_go_text g)].
Proof.
  unfold generate.
  destruct (spawn (first_cmdline p o) w) as [rc1 w1].
  destruct (rc1 =? 0)%Z; [|discriminate].
  destruct (spawn (second_cmdline p o) w1) as [rc2 w2].
  destruct (rc2 =? 0)%Z; [|discriminate].
  destruct (store _ _ w2) as [w3|]; [|discriminate].
  destruct (store _ _ w3) as [w4|]; [reflexivity | discriminate].
Qed.

Lemma run_returns (p : process) (w : World) :
  fst (exec p w) = Return tt ->
  exists o g,
    flag_value "--output=" (args p) = Some o /\ o <> "" /\
    flag_value "--package=" (args p) = Some g /\ g <> "" /\
    trace (snd (exec p w)) =
    [LogDebug (first_cmdline p o); CheckCall (first_cmdline p o);
     CheckCall (second_cmdline p o);
     FileWrite (internal_s_path o) internal_s_text;
     FileWrite (internal_go_path o) (internal_go_text g)].
Proof.
  destruct (run_cases p w) as [E | (o & g & Ho & Hno & Hg & Hng & E)]; rewrite E.
  - discriminate.
  - intros H. exists o, g. repeat (split; [assumption|]). now apply generate_returns.
Qed.

Lemma output_paths_returns (p : process) (o g : string) :
  output_paths
    [LogDebug (first_cmdline p o); CheckCall (first_cmdline p o);
     CheckCall (second_cmdline p o);
     FileWrite (internal_s_path o) internal_s_text;
     FileWrite (internal_go_path o) (internal_go_text g)] =
  [(o ++ ".go")%string; (o ++ "_race.go")%string; internal_s_path o; internal_go_path o].
Proof. reflexivity. Qed.

End Claims.

(** ** Where the four files lie *)

Module FileFacts.
Import PyStr PosixPath StrFacts PathFacts TextFacts.

Lemma long_not_skipped (s : string) : 2 <= String.length s -> skipped s = false.
Proof.
  intros H. destruct (skipped s) eqn:E; [|reflexivity].
  apply skipped_short in E. lia.
Qed.

Lemma beside_inj (o x y : string) : beside o x = beside o y -> x = y.
Proof.
  unfold beside. intros [= H]. apply app_inv_head in H. now injection H.
Qed.

Lemma locate_pool (o sfx : string) :
  contains sep sfx = false -> 2 <= String.length sfx ->
  locate (o ++ sfx) = beside o (basename o ++ sfx).
Proof.
  intros Hs Hl. apply locate_with_suffix; [assumption|].
  apply long_not_skipped. rewrite length_append. lia.
Qed.

Lemma locate_internal (o name : string) :
  contains sep name = false -> 2 <= String.length name ->
  locate (output_dir_of o ++ "/" ++ name) = beside o name.
Proof.
  intros Hn Hl.
  rewrite locate_in_dir;
    [| apply output_dir_not_empty | assumption | now apply long_not_skipped].
  now rewrite locate_output_dir.
Qed.

Lemma parent_beside (o name : string) : parent (beside o name) = locate (output_dir_of o).
Proof.
  unfold parent, beside. cbn [fst snd].
  rewrite removelast_last, locate_output_dir. reflexivity.
Qed.

Lemma locations_returns (o : string) :
  map locate [(o ++ ".go")%string; (o ++ "_race.go")%string;
              internal_s_path o; internal_go_path o] =
  [beside o (basename o ++ ".go"); beside o (basename o ++ "_race.go");
   beside o internal_s_name; beside o internal_go_name].
Proof.
  unfold internal_s_path, internal_go_path. cbn [map].
  rewrite !locate_pool, !locate_internal by (try reflexivity; simpl; lia).
  reflexivity.
Qed.

(** The names of the two pool sources never coincide with each other, nor
    with the placeholder; the race source never coincides with the glue. *)
Lemma names_apart (b : string) :
  (b ++ ".go" <> b ++ "_race.go")%string /\
  (b ++ ".go")%string <> internal_s_name /\
  (b ++ "_race.go")%string <> internal_s_name /\
  (b ++ "_race.go")%string <> internal_go_name /\
  internal_s_name <> internal_go_name.
Proof.
  repeat split.
  - intros H. apply append_inv_head in H. discriminate.
  - intros H. apply (f_equal (fun s => endswith_char s "o")) in H.
    rewrite endswith_char_append in H by discriminate. discriminate.
  - intros H. apply (f_equal (fun s => endswith_char s "o")) in H.
    rewrite endswith_char_append in H by discriminate. discriminate.
  - intros H.
    change (b ++ "_race.go")%string with (b ++ ("_race" ++ ".go"))%string in H.
    rewrite <- append_assoc in H.
    change internal_go_name with ("randomized_freepool_internal" ++ ".go")%string in H.
    apply append_inv_tail in H.
    apply (f_equal (fun s => endswith_char s "e")) in H.
    rewrite endswith_char_append in H by discriminate. discriminate.
  - discriminate.
Qed.

Lemma pool_is_glue (b : string) :
  (b ++ ".go")%string = internal_go_name <-> b = "randomized_freepool_internal".
Proof.
  split; [|now intros ->].
  change internal_go_name with ("randomized_freepool_internal" ++ ".go")%string.
  apply append_inv_tail.
Qed.

Lemma count_four (a b c d : location) :
  a <> b -> a <> c -> b <> c -> b <> d -> c <> d ->
  length (nodup location_eq_dec [a; b; c; d]) = if location_eq_dec a d then 3 else 4.
Proof.
  intros Hab Hac Hbc Hbd Hcd. cbn [nodup in_dec list_rec list_rect].
  repeat match goal with
         | |- context [location_eq_dec ?x ?y] => destruct (location_eq_dec x y)
         end; try congruence; reflexivity.
Qed.

(** The four paths of a run that returns name four files, but for the one
    clash of the optimized pool source with the glue file. *)
Lemma count_files_returns (o : string) :
  count_files [(o ++ ".go")%string; (o ++ "_race.go")%string;
               internal_s_path o; internal_go_path o] =
  if (basename o =? "randomized_freepool_internal")%string then 3 else 4.
Proof.
  unfold count_files. rewrite locations_returns.
  destruct (names_apart (basename o)) as (H1 & H2 & H3 & H4 & H5).
  rewrite count_four by (intros E; apply beside_inj in E; congruence).
  destruct (location_eq_dec _ _) as [E|E].
  - apply beside_inj, pool_is_glue in E. now rewrite E.
  - destruct (String.eqb_spec (basename o) "randomized_freepool_internal") as [E'|]; [|reflexivity].
    exfalso; apply E. now rewrite E'.
Qed.

End FileFacts.

Section FileClaims.

Context {World : Type}.
Variable spawn : list string -> World -> Z * World.
Variable store : string -> string -> World -> option World.

Local Abbreviation exec := (run spawn store).

(** The output paths of an invocation that returns, in order:
    [<output>.go], [<output>_race.go], and in the directory of the output
    path [randomized_freepool_internal.s] and
    [randomized_freepool_internal.go].  They are four files for every
    output path whose base name is not [randomized_freepool_internal]; for
    that one base name the driver does not keep them apart: the path of the
    glue file is the path of the optimized pool source, and three files
    are counted. *)
Theorem four_outputs (p : process) (w : World) :
  fst (exec p w) = Return tt ->
  exists o,
    flag_value "--output=" (args p) = Some o /\
    output_paths (trace (snd (exec p w))) =
      [(o ++ ".go")%string; (o ++ "_race.go")%string;
       (output_dir_of o ++ "/" ++ internal_s_name)%string;
       (output_dir_of o ++ "/" ++ internal_go_name)%string] /\
    (PosixPath.basename o <> "randomized_freepool_internal" ->
     count_files (output_paths (trace (snd (exec p w)))) = 4) /\
    (PosixPath.basename o = "randomized_freepool_internal" ->
     locate (o ++ ".go") = locate (output_dir_of o ++ "/" ++ internal_go_name) /\
     count_files (output_paths (trace (snd (exec p w)))) = 3).
Proof.
  intros H. destruct (run_returns spawn store p w H) as (o & g & Ho & _ & _ & _ & E).
  exists o. rewrite E, output_paths_returns.
  split; [assumption|]. split; [reflexivity|].
  rewrite FileFacts.count_files_returns. split.
  - intros Hb. apply String.eqb_neq in Hb. now rewrite Hb.
  - intros Hb. split.
    + rewrite (FileFacts.locate_pool o ".go"),
        (FileFacts.locate_internal o internal_go_name)
        by (try reflexivity; simpl; lia).
      now rewrite Hb.
    + now rewrite Hb.
Qed.

(** C10: in an invocation that returns, the engine is told to put the two
    pool sources at [<output>.go] and [<output>_race.go], and the driver
    writes the two fixed files to [./] when the output path has no slash
    and to [dirname(output)/] when it has one.  That directory may be
    spelled otherwise than the directory part of the output path (a
    leading [./], doubled or trailing slashes), but as a location it is the
    directory of either pool source, and of either fixed file. *)
Theorem internal_files_directory (p : process) (w : World) :
  fst (exec p w) = Return tt ->
  exists o,
    flag_value "--output=" (args p) = Some o /\
    flat_map engine_outputs (calls (trace (snd (exec p w)))) =
      [(o ++ ".go")%string; (o ++ "_race.go")%string] /\
    map fst (writes (trace (snd (exec p w)))) =
      [(output_dir_of o ++ "/" ++ internal_s_name)%string;
       (output_dir_of o ++ "/" ++ internal_go_name)%string] /\
    output_paths (trace (snd (exec p w))) =
      [(o ++ ".go")%string; (o ++ "_race.go")%string;
       (output_dir_of o ++ "/" ++ internal_s_name)%string;
       (output_dir_of o ++ "/" ++ internal_go_name)%string] /\
    (PyStr.contains PosixPath.sep o = false -> output_dir_of o = ".") /\
    (PyStr.contains PosixPath.sep o = true ->
     output_dir_of o = PosixPath.dirname o /\ PosixPath.dirname o <> "") /\
    parent (locate (o ++ ".go")) = locate (output_dir_of o) /\
    parent (locate (o ++ "_race.go")) = locate (output_dir_of o) /\
    parent (locate (output_dir_of o ++ "/" ++ internal_s_name)) = locate (output_dir_of o) /\
    parent (locate (output_dir_of o ++ "/" ++ internal_go_name)) = locate (output_dir_of o).
Proof.
  intros H. destruct (run_returns spawn store p w H) as (o & g & Ho & _ & _ & _ & E).
  exists o. rewrite E.
  split; [assumption|]. do 3 (split; [reflexivity|]).
  destruct (TextFacts.output_dir_cases o) as [H1 H2].
  split; [assumption|]. split; [assumption|].
  rewrite !FileFacts.locate_pool, !FileFacts.locate_internal
    by (try reflexivity; simpl; lia).
  repeat split; apply FileFacts.parent_beside.
Qed.

End FileClaims.

(** ** The text of the two fixed files *)

Module GlueFacts.
Import PyStr StrFacts TextFacts.

Lemma internal_go_text_split (g : string) :
  internal_go_text g = (internal_go_head ++ g ++ internal_go_tail)%string.
Proof. reflexivity. Qed.

Lemma internal_s_text_lines : split LF internal_s_text = internal_s_lines ++ [""].
Proof. reflexivity. Qed.

Lemma internal_go_text_lines (g : string) :
  contains LF g = false ->
  split LF (internal_go_text g) = internal_go_lines g ++ [""].
Proof.
  intros H. apply split_unlines. unfold internal_go_lines.
  repeat (apply Forall_cons; [try reflexivity|]); [|constructor].
  now rewrite contains_append, H.
Qed.

Lemma basename_internal_s (o : string) :
  PosixPath.basename (internal_s_path o) = internal_s_name.
Proof. now apply basename_in_dir. Qed.

Lemma basename_internal_go (o : string) :
  PosixPath.basename (internal_go_path o) = internal_go_name.
Proof. now apply basename_in_dir. Qed.

End GlueFacts.

Section TextClaims.

Context {World : Type}.
Variable spawn : list string -> World -> Z * World.
Variable store : string -> string -> World -> option World.

Local Abbreviation exec := (run spawn store).

(** Whatever a run writes is one of the two fixed files. *)
Lemma writes_run (p : process) (w : World) (path text : string) :
  In (path, text) (writes (trace (snd (exec p w)))) ->
  exists o g,
    flag_value "--output=" (args p) = Some o /\
    flag_value "--package=" (args p) = Some g /\
    ((path, text) = (internal_s_path o, internal_s_text) \/
     (path, text) = (internal_go_path o, internal_go_text g)).
Proof.
  destruct (run_cases spawn store p w) as [E | (o & g & Ho & _ & Hg & _ & E)]; rewrite E.
  - intros [].
  - intros H. exists o, g. split; [assumption|]. split; [assumption|].
    revert H. unfold generate.
    destruct (spawn (first_cmdline p o) w) as [rc1 w1].
    destruct (rc1 =? 0)%Z; [|intros []].
    destruct (spawn (second_cmdline p o) w1) as [rc2 w2].
    destruct (rc2 =? 0)%Z; [|intros []].
    destruct (store _ _ w2) as [w3|]; [|intros []].
    destruct (store _ _ w3) as [w4|]; simpl; intuition auto.
Qed.

(** C7, as the code has it: the stub file [randomized_freepool_internal.s]
    holds no code but is not empty; its text is a fixed header of six
    lines, each blank or a [//] comment. *)
Theorem stub_is_comments (p : process) (w : World) :
  (forall path text,
     In (path, text) (writes (trace (snd (exec p w)))) ->
     PosixPath.basename path = internal_s_name ->
     text = internal_s_text) /\
  (fst (exec p w) = Return tt ->
   exists path,
     PosixPath.basename path = internal_s_name /\
     In (path, internal_s_text) (writes (trace (snd (exec p w))))) /\
  internal_s_text <> "" /\
  PyStr.split PyStr.LF internal_s_text = internal_s_lines ++ [""] /\
  length internal_s_lines = 6 /\
  Forall (fun l => l = "" \/ PyStr.startswith l "//" = true) internal_s_lines.
Proof.
  split; [|split; [|split; [discriminate | split; [reflexivity | split; [reflexivity|]]]]].
  - intros path text Hin Hb.
    destruct (writes_run p w path text Hin) as (o & g & _ & _ & [[= -> ->] | [= -> ->]]).
    + reflexivity.
    + rewrite GlueFacts.basename_internal_go in Hb. discriminate.
  - intros H. destruct (run_returns spawn store p w H) as (o & g & _ & _ & _ & _ & E).
    exists (internal_s_path o). rewrite E. split.
    + apply GlueFacts.basename_internal_s.
    + simpl; auto.
  - unfold internal_s_lines.
    repeat (apply Forall_cons; [first [now left | now right]|]). constructor.
Qed.

(** C8: in an invocation that returns, the glue file
    [randomized_freepool_internal.go] has one package clause, naming the
    value of [--package]; its function declarations are the three
    signatures [runtime_procPin() int], [runtime_procUnpin()] and
    [fastrandn(n uint32) uint32]; and its [go:linkname] directives bind
    these three names, and no other. *)
Theorem glue_declarations (p : process) (w : World) :
  fst (exec p w) = Return tt ->
  exists g path,
    flag_value "--package=" (args p) = Some g /\
    PosixPath.basename path = internal_go_name /\
    In (path, internal_go_text g) (writes (trace (snd (exec p w)))) /\
    (forall path' text,
       In (path', text) (writes (trace (snd (exec p w)))) ->
       PosixPath.basename path' = internal_go_name -> text = internal_go_text g) /\
    let lines := PyStr.split PyStr.LF (internal_go_text g) in
    filter (fun l => PyStr.startswith l "package ") lines = [("package " ++ g)%string] /\
    filter (fun l => PyStr.startswith l "func ") lines =
      ["func runtime_procPin() int"; "func runtime_procUnpin()";
       "func fastrandn(n uint32) uint32"] /\
    filter (fun l => PyStr.startswith l "//go:linkname ") lines =
      ["//go:linkname runtime_procPin sync.runtime_procPin";
       "//go:linkname runtime_procUnpin sync.runtime_procUnpin";
       "//go:linkname fastrandn sync.fastrandn"].
Proof.
  intros H. destruct (run_returns spawn store p w H) as (o & g & Ho & _ & Hg & _ & E).
  exists g, (internal_go_path o).
  split; [assumption|]. split; [apply GlueFacts.basename_internal_go|].
  split; [rewrite E; simpl; auto|].
  split.
  - intros path' text Hin Hb.
    destruct (writes_run p w path' text Hin) as (o' & g' & _ & Hg' & [[= -> ->] | [= -> ->]]).
    + rewrite GlueFacts.basename_internal_s in Hb. discriminate.
    + congruence.
  - cbv zeta.
    rewrite GlueFacts.internal_go_text_lines
      by (eapply ArgFacts.flag_value_one_line; eassumption).
    repeat split.
Qed.

End TextClaims.

(** C6: in any two invocations that return, the placeholder file has the
    same text, whatever the arguments; the glue file has the same text when
    the two were given the same [--package] value, and otherwise the two
    texts differ in the package name alone: each is the same head, the
    package name, and the same tail. *)
Theorem fixed_files_are_invariant
    {W1 W2 : Type}
    (spawn1 : list string -> W1 -> Z * W1) (store1 : string -> string -> W1 -> option W1)
    (spawn2 : list string -> W2 -> Z * W2) (store2 : string -> string -> W2 -> option W2)
    (p1 p2 : process) (w1 : W1) (w2 : W2) :
  fst (run spawn1 store1 p1 w1) = Return tt ->
  fst (run spawn2 store2 p2 w2) = Return tt ->
  let tr1 := trace (snd (run spawn1 store1 p1 w1)) in
  let tr2 := trace (snd (run spawn2 store2 p2 w2)) in
  map (fun f => PosixPath.basename (fst f)) (writes tr1) = [internal_s_name; internal_go_name] /\
  map (fun f => PosixPath.basename (fst f)) (writes tr2) = [internal_s_name; internal_go_name] /\
  map snd (firstn 1 (writes tr1)) = map snd (firstn 1 (writes tr2)) /\
  (flag_value "--package=" (args p1) = flag_value "--package=" (args p2) ->
   map snd (writes tr1) = map snd (writes tr2)) /\
  exists g1 g2,
    flag_value "--package=" (args p1) = Some g1 /\
    flag_value "--package=" (args p2) = Some g2 /\
    map snd (skipn 1 (writes tr1)) = [(internal_go_head ++ g1 ++ internal_go_tail)%string] /\
    map snd (skipn 1 (writes tr2)) = [(internal_go_head ++ g2 ++ internal_go_tail)%string].
Proof.
  intros H1 H2 tr1 tr2.
  destruct (run_returns spawn1 store1 p1 w1 H1) as (o1 & g1 & _ & _ & Hg1 & _ & E1).
  destruct (run_returns spawn2 store2 p2 w2 H2) as (o2 & g2 & _ & _ & Hg2 & _ & E2).
  unfold tr1, tr2. rewrite E1, E2. cbn [writes map fst snd firstn skipn].
  rewrite !GlueFacts.basename_internal_s, !GlueFacts.basename_internal_go.
  repeat (split; [reflexivity|]).
  split.
  - rewrite Hg1, Hg2. now intros [= ->].
  - exists g1, g2. repeat (split; [assumption|]). split; reflexivity.
Qed.

(** ** The properties at sample processes *)

Lemma missing_flag_is_fatal_witness :
  (not_supplied "--package=" (args bare_proc) \/ not_supplied "--output=" (args bare_proc)) /\
  run always_ok disk_ok bare_proc tt =
    (Raise (Exception "--output and --package not set"), init tt) /\
  calls (trace (snd (run always_ok disk_ok bare_proc tt))) = [] /\
  writes (trace (snd (run always_ok disk_ok bare_proc tt))) = [] /\
  output_paths (trace (snd (run always_ok disk_ok bare_proc tt))) = [].
Proof.
  assert (H : not_supplied "--package=" (args bare_proc) \/
              not_supplied "--output=" (args bare_proc))
    by (left; left; repeat constructor).
  split; [exact H | exact (missing_flag_is_fatal always_ok disk_ok bare_proc tt H)].
Defined.

Lemma last_occurrence_decides_witness :
  package (parse_args ["--package=a"; "--package=b"; "x"]) = Some "b" /\
  output (parse_args ["--package=a"; "--output=b"; "x"]) = Some "b" /\
  run always_ok disk_ok
      {| argv0 := "g.py"; args := ["--package=a"; "--package="; "x"]; executable := "python" |} tt =
    (Raise (Exception "--output and --package not set"), init tt).
Proof.
  destruct (last_occurrence_decides always_ok disk_ok ["--package=a"] ["x"] "b")
    as (H1 & H2 & H3).
  split; [apply H1; repeat constructor|].
  split; [apply H2; repeat constructor|].
  apply H3. left. split; [reflexivity | repeat constructor].
Defined.

Lemma forwarded_arguments_witness :
  ~ not_supplied "--package=" (args ex_proc) /\
  ~ not_supplied "--output=" (args ex_proc) /\
  Forall (fun c => forwarded c = ["--prefix=ints"; "-DELEM=[]int"; "--package=tests"])
         (calls (trace (snd (run always_ok disk_ok ex_proc tt)))) /\
  calls (trace (snd (run always_ok disk_ok ex_proc tt))) <> [].
Proof.
  assert (Hp : ~ not_supplied "--package=" (args ex_proc))
    by (rewrite ArgFacts.not_supplied_falsy; vm_compute; discriminate).
  assert (Ho : ~ not_supplied "--output=" (args ex_proc))
    by (rewrite ArgFacts.not_supplied_falsy; vm_compute; discriminate).
  destruct (forwarded_arguments always_ok disk_ok ex_proc tt) as [H1 H2].
  split; [exact Hp|]. split; [exact Ho|]. split; [exact H1 | exact (H2 Hp Ho)].
Defined.

(** C2 as stated fails: [--package=tests] is not an [--output=] flag, and
    is forwarded. *)
Lemma package_flag_is_forwarded :
  ~ Forall (fun c => forwarded c =
                     filter (fun a => negb (is_flag "--package=" a) &&
                                      negb (is_flag "--output=" a)) (args ex_proc))
           (calls (trace (snd (run always_ok disk_ok ex_proc tt)))).
Proof.
  intros H. vm_compute in H. inversion H as [|c l Hc _]. discriminate.
Qed.

Lemma two_expansions_witness :
  calls (trace (snd (run always_ok disk_ok ex_proc tt))) =
  [ ["/usr/bin/python3.6"; "../gtl/generate.py"; "--output=d/int_freepool.go";
     "--prefix=ints"; "-DELEM=[]int"; "--package=tests";
     "../gtl/randomized_freepool.go.tpl"];
    ["/usr/bin/python3.6"; "../gtl/generate.py"; "--output=d/int_freepool_race.go";
     "--prefix=ints"; "-DELEM=[]int"; "--package=tests";
     "../gtl/randomized_freepool_race.go.tpl"] ].
Proof.
  assert (Ho : "d/int_freepool"%string <> ""%string) by discriminate.
  assert (Hg : "tests"%string <> ""%string) by discriminate.
  exact (proj1 (two_expansions always_ok disk_ok ex_proc tt "d/int_freepool" "tests"
                  eq_refl Ho eq_refl Hg)).
Defined.

(** C3 as stated fails: both flags are set, the first expansion exits with
    status 1, and the engine has been invoked once. *)
Lemma failed_first_expansion_runs_once :
  ~ (flag_value "--output=" (args ex_proc) = Some "d/int_freepool"%string ->
     flag_value "--package=" (args ex_proc) = Some "tests"%string ->
     length (calls (trace (snd (run always_fail disk_ok ex_proc tt)))) = 2).
Proof.
  intros H. specialize (H eq_refl eq_refl). vm_compute in H. discriminate.
Qed.

Lemma failed_expansion_is_fatal_witness :
  run always_fail disk_ok ex_proc tt =
    (Raise (CalledProcessError 1 (first_cmdline ex_proc "d/int_freepool")),
     {| world := tt;
        trace := [LogDebug (first_cmdline ex_proc "d/int_freepool");
                  CheckCall (first_cmdline ex_proc "d/int_freepool")] |}) /\
  run second_fails disk_ok_nat ex_proc 0 =
    (Raise (CalledProcessError 1 (second_cmdline ex_proc "d/int_freepool")),
     {| world := 2;
        trace := [LogDebug (first_cmdline ex_proc "d/int_freepool");
                  CheckCall (first_cmdline ex_proc "d/int_freepool");
                  CheckCall (second_cmdline ex_proc "d/int_freepool")] |}).
Proof.
  assert (Ho : "d/int_freepool"%string <> ""%string) by discriminate.
  assert (Hg : "tests"%string <> ""%string) by discriminate.
  assert (H1 : (1 <> 0)%Z) by lia.
  split.
  - exact (proj1 (proj1 (failed_expansion_is_fatal always_fail disk_ok ex_proc tt
                           "d/int_freepool" "tests" eq_refl Ho eq_refl Hg)
                    1%Z tt eq_refl H1)).
  - exact (proj1 (proj2 (failed_expansion_is_fatal second_fails disk_ok_nat ex_proc 0
                           "d/int_freepool" "tests" eq_refl Ho eq_refl Hg)
                    1 1%Z 2 eq_refl eq_refl H1)).
Defined.

Lemma four_outputs_witness :
  fst (run always_ok disk_ok ex_proc tt) = Return tt /\
  output_paths (trace (snd (run always_ok disk_ok ex_proc tt))) =
    ["d/int_freepool.go"; "d/int_freepool_race.go";
     "d/randomized_freepool_internal.s"; "d/randomized_freepool_internal.go"] /\
  count_files (output_paths (trace (snd (run always_ok disk_ok ex_proc tt)))) = 4.
Proof.
  split; [reflexivity|].
  destruct (four_outputs always_ok disk_ok ex_proc tt eq_refl) as (o & Ho & Hp & H4 & _).
  vm_compute in Ho. injection Ho as <-.
  split; [exact Hp|]. apply H4. vm_compute. discriminate.
Defined.

(** At [--output=d/randomized_freepool_internal] the run returns and the
    four files are not there. *)
Lemma clash_leaves_three_files :
  ~ (fst (run always_ok disk_ok clash_proc tt) = Return tt ->
     count_files (output_paths (trace (snd (run always_ok disk_ok clash_proc tt)))) = 4).
Proof.
  intros H. specialize (H eq_refl). vm_compute in H. discriminate.
Qed.

(** C5, at the output path [d/randomized_freepool_internal]: the claim
    promises four files, the optimized pool source among them.  The run
    returns; the engine was told to put the optimized pool source at
    [d/randomized_freepool_internal.go], and the driver then opens that
    very path for writing and puts the glue text there, so the optimized
    pool source is lost and three files are left. *)
Theorem clash_overwrites_optimized_source :
  fst (run always_ok disk_ok clash_proc tt) = Return tt /\
  flat_map engine_outputs (calls (trace (snd (run always_ok disk_ok clash_proc tt)))) =
    ["d/randomized_freepool_internal.go"; "d/randomized_freepool_internal_race.go"] /\
  writes (trace (snd (run always_ok disk_ok clash_proc tt))) =
    [("d/randomized_freepool_internal.s"%string, internal_s_text);
     ("d/randomized_freepool_internal.go"%string, internal_go_text "tests")] /\
  output_paths (trace (snd (run always_ok disk_ok clash_proc tt))) =
    ["d/randomized_freepool_internal.go"; "d/randomized_freepool_internal_race.go";
     "d/randomized_freepool_internal.s"; "d/randomized_freepool_internal.go"] /\
  count_files (output_paths (trace (snd (run always_ok disk_ok clash_proc tt)))) = 3.
Proof. repeat split. Qed.

Lemma internal_files_directory_witness :
  fst (run always_ok disk_ok ex_proc tt) = Return tt /\
  flat_map engine_outputs (calls (trace (snd (run always_ok disk_ok ex_proc tt)))) =
    ["d/int_freepool.go"; "d/int_freepool_race.go"] /\
  map fst (writes (trace (snd (run always_ok disk_ok ex_proc tt)))) =
    ["d/randomized_freepool_internal.s"; "d/randomized_freepool_internal.go"] /\
  output_paths (trace (snd (run always_ok disk_ok ex_proc tt))) =
    ["d/int_freepool.go"; "d/int_freepool_race.go";
     "d/randomized_freepool_internal.s"; "d/randomized_freepool_internal.go"] /\
  parent (locate "d/int_freepool.go") = (false, ["d"]) /\
  parent (locate "d/int_freepool_race.go") = (false, ["d"]) /\
  parent (locate "d/randomized_freepool_internal.s") = (false, ["d"]) /\
  parent (locate "d/randomized_freepool_internal.go") = (false, ["d"]).
Proof.
  split; [reflexivity|].
  destruct (internal_files_directory always_ok disk_ok ex_proc tt eq_refl)
    as (o & Ho & He & Hw & Hp & _ & _ & L1 & L2 & L3 & L4).
  vm_compute in Ho. injection Ho as <-.
  split; [exact He|]. split; [exact Hw|]. split; [exact Hp|].
  split; [exact L1|]. split; [exact L2|]. split; [exact L3 | exact L4].
Defined.

Lemma stub_is_comments_witness :
  fst (run always_ok disk_ok ex_proc tt) = Return tt /\
  exists path,
    PosixPath.basename path = internal_s_name /\
    In (path, internal_s_text) (writes (trace (snd (run always_ok disk_ok ex_proc tt)))).
Proof.
  split; [reflexivity|].
  exact (proj1 (proj2 (stub_is_comments always_ok disk_ok ex_proc tt)) eq_refl).
Defined.

(** C7 as stated fails: the text written to the stub file is not empty. *)
Lemma stub_is_not_empty :
  ~ (forall text,
       In ("d/randomized_freepool_internal.s"%string, text)
          (writes (trace (snd (run always_ok disk_ok ex_proc tt)))) ->
       text = ""%string).
Proof.
  intros H. specialize (H internal_s_text (or_introl eq_refl)). discriminate.
Qed.

Lemma glue_declarations_witness :
  fst (run always_ok disk_ok ex_proc tt) = Return tt /\
  exists g path,
    flag_value "--package=" (args ex_proc) = Some g /\
    PosixPath.basename path = internal_go_name /\
    In (path, internal_go_text g) (writes (trace (snd (run always_ok disk_ok ex_proc tt)))) /\
    filter (fun l => PyStr.startswith l "package ")
           (PyStr.split PyStr.LF (internal_go_text g)) = [("package " ++ g)%string].
Proof.
  split; [reflexivity|].
  destruct (glue_declarations always_ok disk_ok ex_proc tt eq_refl)
    as (g & path & Hg & Hb & Hin & _ & Hpk & _).
  exists g, path. repeat (split; [assumption|]). exact Hpk.
Defined.

Lemma fixed_files_are_invariant_witness :
  fst (run always_ok disk_ok ex_proc tt) = Return tt /\
  fst (run always_ok disk_ok clash_proc tt) = Return tt /\
  flag_value "--package=" (args ex_proc) = flag_value "--package=" (args clash_proc) /\
  map snd (writes (trace (snd (run always_ok disk_ok ex_proc tt)))) =
  map snd (writes (trace (snd (run always_ok disk_ok clash_proc tt)))).
Proof.
  repeat (split; [reflexivity|]).
  exact (proj1 (proj2 (proj2 (proj2
    (fixed_files_are_invariant always_ok disk_ok always_ok disk_ok ex_proc clash_proc tt tt
       eq_refl eq_refl)))) eq_refl).
Defined.

(** ** Further properties of the driver *)

Module JoinFacts.
Import PyStr PosixPath StrFacts PathFacts TextFacts.

Lemma endswith_char_snoc (s : string) (c : ascii) :
  endswith_char s c = true -> exists s', s = (s' ++ String c "")%string.
Proof.
  induction s as [|a s IH]; [discriminate|].
  destruct s as [|b s].
  - simpl. intros H. apply Ascii.eqb_eq in H as ->. now exists "".
  - intros H. destruct (IH H) as (s' & E). exists (String a s'). simpl. now rewrite <- E.
Qed.

Lemma startswith_sep_absent (name : string) :
  contains sep name = false -> startswith name (String sep "") = false.
Proof.
  destruct name as [|a name]; [reflexivity|].
  simpl. intros H. apply orb_false_iff in H as [Ha _].
  unfold startswith. cbn [removeprefix]. rewrite Ascii.eqb_sym. now rewrite Ha.
Qed.

(** [join] puts a file name inside the directory, whatever the form of the
    directory: empty, ending in a slash or not. *)
Lemma locate_join (d name : string) :
  contains sep name = false -> skipped name = false ->
  locate (join d name) = (fst (locate d), snd (locate d) ++ [name]).
Proof.
  intros Hn Hk. unfold join. rewrite (startswith_sep_absent name Hn).
  destruct (String.eqb_spec d "") as [->|Hd]; cbn [orb].
  - unfold locate. cbn [append fst snd]. rewrite (components_absent name Hn), Hk.
    f_equal. destruct name as [|a name]; [reflexivity|].
    rewrite is_abs_cons. simpl in Hn. apply orb_false_iff in Hn as [Ha _].
    now rewrite Ascii.eqb_sym.
  - destruct (endswith_char d sep) eqn:E.
    + destruct (endswith_char_snoc d sep E) as (d' & ->).
      rewrite append_assoc. cbn [append].
      unfold locate; cbn [fst snd]. f_equal.
      * destruct d' as [|x d']; [reflexivity|].
        cbn [append]. now rewrite !is_abs_cons.
      * rewrite !components_append_sep, (components_absent name Hn), Hk.
        now rewrite (components_absent ""), app_nil_r.
    + now apply (locate_in_dir d name).
Qed.

End JoinFacts.

Module LoopFacts.
Import PyStr Re StrFacts ArgFacts.

Lemma output_flag_is_no_package (a : string) :
  is_flag "--output=" a = true -> match_flag "--package=" a = None.
Proof.
  unfold is_flag, startswith. destruct (removeprefix "--output=" a) as [r|] eqn:E; [|discriminate].
  intros _. apply removeprefix_Some in E. subst a. reflexivity.
Qed.

(** Dropping the [--output=] arguments does not change the package. *)
Lemma flag_value_package_filter (argv : list string) :
  flag_value "--package=" (filter (fun a => negb (is_flag "--output=" a)) argv) =
  flag_value "--package=" argv.
Proof.
  induction argv as [|a argv IH]; [reflexivity|].
  cbn [filter flag_value].
  destruct (is_flag "--output=" a) eqn:E; cbn [negb].
  - rewrite IH, (output_flag_is_no_package a E).
    now destruct (flag_value "--package=" argv).
  - cbn [flag_value]. now rewrite IH.
Qed.

Lemma filter_filter_negb {A} (f : A -> bool) (l : list A) :
  filter f (filter (fun a => negb (f a)) l) = [].
Proof.
  induction l as [|a l IH]; [reflexivity|].
  simpl. destruct (f a) eqn:E; simpl; [assumption | now rewrite E].
Qed.

End LoopFacts.

Section Extras.

Context {World : Type}.
Variable spawn : list string -> World -> Z * World.
Variable store : string -> string -> World -> option World.

Local Abbreviation exec := (run spawn store).

(** A command line the run called is the first or the second one. *)
Lemma calls_run (p : process) (w : World) (c : list string) :
  In c (calls (trace (snd (exec p w)))) ->
  exists o,
    flag_value "--output=" (args p) = Some o /\
    (c = first_cmdline p o \/ c = second_cmdline p o).
Proof.
  destruct (run_cases spawn store p w) as [E | (o & g & Ho & _ & _ & _ & E)]; rewrite E.
  - intros [].
  - rewrite calls_generate. intros H. exists o. split; [assumption|].
    destruct (_ =? _)%Z; simpl in H; intuition auto.
Qed.

(** X1: the driver returns exactly when both flags are set, both expansions
    exit with status zero and both files can be written, each step in the
    world the one before left; the world at the end is the one the last
    write left. *)
Theorem returns_iff (p : process) (w : World) :
  fst (exec p w) = Return tt <->
  exists o g w1 w2 w3 w4,
    flag_value "--output=" (args p) = Some o /\ o <> "" /\
    flag_value "--package=" (args p) = Some g /\ g <> "" /\
    spawn (first_cmdline p o) w = (0%Z, w1) /\
    spawn (second_cmdline p o) w1 = (0%Z, w2) /\
    store (internal_s_path o) internal_s_text w2 = Some w3 /\
    store (internal_go_path o) (internal_go_text g) w3 = Some w4 /\
    world (snd (exec p w)) = w4.
Proof.
  split.
  - destruct (run_cases spawn store p w) as [E | (o & g & Ho & Hno & Hg & Hng & E)];
      rewrite E; [discriminate|].
    unfold generate.
    destruct (spawn (first_cmdline p o) w) as [rc1 w1] eqn:E1.
    destruct (Z.eqb_spec rc1 0) as [->|]; [|discriminate].
    destruct (spawn (second_cmdline p o) w1) as [rc2 w2] eqn:E2.
    destruct (Z.eqb_spec rc2 0) as [->|]; [|discriminate].
    destruct (store _ _ w2) as [w3|] eqn:E3; [|discriminate].
    destruct (store _ _ w3) as [w4|] eqn:E4; [|discriminate].
    intros _. exists o, g, w1, w2, w3, w4. repeat split; auto.
  - intros (o & g & w1 & w2 & w3 & w4 & Ho & Hno & Hg & Hng & E1 & E2 & E3 & E4 & _).
    rewrite (run_set spawn store p w o g Ho Hno Hg Hng). unfold generate.
    rewrite E1. cbn [Z.eqb]. rewrite E2. cbn [Z.eqb]. now rewrite E3, E4.
Qed.

(** X2: whatever the sub-processes and the disk do, the effects of a run
    are an initial part of one fixed sequence: the log line, the first
    expansion, the second expansion, the placeholder file, the glue file.
    So no file is written before both expansions have been run, and the
    glue file never before the placeholder. *)
Theorem effects_in_order (p : process) (w : World) :
  trace (snd (exec p w)) = [] \/
  exists o g n,
    flag_value "--output=" (args p) = Some o /\
    flag_value "--package=" (args p) = Some g /\
    2 <= n <= 5 /\
    trace (snd (exec p w)) = firstn n (full_trace p o g).
Proof.
  destruct (run_cases spawn store p w) as [E | (o & g & Ho & _ & Hg & _ & E)]; rewrite E.
  - now left.
  - right. exists o, g. unfold generate, full_trace.
    destruct (spawn (first_cmdline p o) w) as [rc1 w1].
    destruct (rc1 =? 0)%Z; [|exists 2; repeat split; auto; lia].
    destruct (spawn (second_cmdline p o) w1) as [rc2 w2].
    destruct (rc2 =? 0)%Z; [|exists 3; repeat split; auto; lia].
    destruct (store _ _ w2) as [w3|]; [|exists 3; repeat split; auto; lia].
    destruct (store _ _ w3) as [w4|]; [exists 5 | exists 4]; repeat split; auto; lia.
Qed.

(** X4: with both flags supplied, the run starts by logging a command line
    and then calls that very command line; nothing else is logged, the
    second expansion in particular. *)
Theorem log_matches_first_call (p : process) (w : World) :
  ~ not_supplied "--package=" (args p) -> ~ not_supplied "--output=" (args p) ->
  exists c rest,
    trace (snd (exec p w)) = LogDebug c :: CheckCall c :: rest /\
    logs (trace (snd (exec p w))) = [c] /\
    hd_error (calls (trace (snd (exec p w)))) = Some c.
Proof.
  intros Hp Hq.
  destruct (ArgFacts.supplied_value _ _ Hp) as (g & Hg & Hng).
  destruct (ArgFacts.supplied_value _ _ Hq) as (o & Ho & Hno).
  rewrite (run_set spawn store p w o g Ho Hno Hg Hng). unfold generate.
  exists (first_cmdline p o).
  destruct (spawn (first_cmdline p o) w) as [rc1 w1].
  destruct (rc1 =? 0)%Z; [|eexists; repeat split].
  destruct (spawn (second_cmdline p o) w1) as [rc2 w2].
  destruct (rc2 =? 0)%Z; [|eexists; repeat split].
  destruct (store _ _ w2) as [w3|]; [|eexists; repeat split].
  destruct (store _ _ w3) as [w4|]; eexists; repeat split.
Qed.

End Extras.

Section MoreExtras.

Context {World : Type}.
Variable spawn : list string -> World -> Z * World.
Variable store : string -> string -> World -> option World.

Local Abbreviation exec := (run spawn store).

(** X5: the package name cannot add lines to the glue file.  Whatever the
    arguments, a glue file the driver writes has the 26 lines of the
    literal (and the empty piece after the last line feed); the value put
    in has no line feed, and every line but the second is the fixed one. *)
Theorem glue_has_fixed_lines (p : process) (w : World) (path text : string) :
  In (path, text) (writes (trace (snd (exec p w)))) ->
  PosixPath.basename path = internal_go_name ->
  exists g,
    flag_value "--package=" (args p) = Some g /\
    PyStr.contains PyStr.LF g = false /\
    PyStr.split PyStr.LF text = internal_go_lines g ++ [""] /\
    length (PyStr.split PyStr.LF text) = 27 /\
    forall i, i <> 1 ->
      nth i (PyStr.split PyStr.LF text) "" = nth i (internal_go_lines "" ++ [""]) "".
Proof.
  intros Hin Hb.
  destruct (writes_run spawn store p w path text Hin)
    as (o & g & _ & Hg & [[= -> ->] | [= -> ->]]).
  - rewrite GlueFacts.basename_internal_s in Hb. discriminate.
  - exists g. assert (Hl : PyStr.contains PyStr.LF g = false)
      by (eapply ArgFacts.flag_value_one_line; eassumption).
    rewrite (GlueFacts.internal_go_text_lines g Hl).
    repeat (split; [assumption || reflexivity|]).
    intros i Hi. unfold internal_go_lines. cbn [app].
    destruct i as [|[|i]]; [reflexivity | congruence |].
    do 26 (destruct i as [|i]; [reflexivity|]). now destruct i.
Qed.

Lemma last_generate_cmdline (p : process) (d o sfx : string)
    (argv : list string) (tpl : string) :
  last (generate_cmdline p d o sfx argv tpl) "" = PosixPath.join d tpl.
Proof.
  unfold generate_cmdline. rewrite app_assoc. apply last_last.
Qed.

(** X6: the engine script and the template of every expansion are taken
    from the directory of the driver script itself, [dirname(sys.argv[0])]
    (the working directory when the driver was started by its bare name),
    and are run by the interpreter that runs the driver. *)
Theorem engine_beside_driver (p : process) (w : World) (c : list string) :
  In c (calls (trace (snd (exec p w)))) ->
  let d := locate (PosixPath.dirname (argv0 p)) in
  nth 0 c "" = executable p /\
  locate (nth 1 c "") = (fst d, snd d ++ ["generate.py"]) /\
  exists tpl,
    (tpl = "randomized_freepool.go.tpl" \/ tpl = "randomized_freepool_race.go.tpl") /\
    locate (last c "") = (fst d, snd d ++ [tpl]).
Proof.
  intros Hin d.
  destruct (calls_run spawn store p w c Hin) as (o & _ & [-> | ->]);
    (split; [reflexivity|]);
    (split; [apply JoinFacts.locate_join; reflexivity|]).
  - exists "randomized_freepool.go.tpl". split; [now left|].
    unfold first_cmdline. rewrite last_generate_cmdline.
    apply JoinFacts.locate_join; reflexivity.
  - exists "randomized_freepool_race.go.tpl". split; [now right|].
    unfold second_cmdline. rewrite last_generate_cmdline.
    apply JoinFacts.locate_join; reflexivity.
Qed.

Lemma script_options_generate_cmdline (p : process) (d o sfx : string)
    (argv : list string) (tpl : string) :
  script_options (generate_cmdline p d o sfx argv tpl) =
  ("--output=" ++ o ++ sfx)%string :: argv.
Proof.
  unfold script_options, generate_cmdline. cbn [app skipn].
  apply (removelast_last (_ :: argv)).
Qed.

(** X7: however many [--output=] arguments the driver was given, the engine
    gets exactly one before its template: the one the driver builds from
    the value it ended with, which has no line feed. *)
Theorem single_output_flag (p : process) (w : World) (c : list string) :
  In c (calls (trace (snd (exec p w)))) ->
  exists o sfx,
    flag_value "--output=" (args p) = Some o /\
    (sfx = ".go" \/ sfx = "_race.go") /\
    filter (is_flag "--output=") (script_options c) = [("--output=" ++ o ++ sfx)%string] /\
    PyStr.contains PyStr.LF ("--output=" ++ o ++ sfx) = false.
Proof.
  intros Hin.
  destruct (calls_run spawn store p w c Hin) as (o & Ho & Hc).
  assert (Hl : PyStr.contains PyStr.LF o = false)
    by (eapply ArgFacts.flag_value_one_line; eassumption).
  assert (F : forall sfx, PyStr.contains PyStr.LF sfx = false ->
            filter (is_flag "--output=")
              (("--output=" ++ o ++ sfx)%string ::
               filter (fun a => negb (is_flag "--output=" a)) (args p)) =
            [("--output=" ++ o ++ sfx)%string] /\
            PyStr.contains PyStr.LF ("--output=" ++ o ++ sfx) = false).
  { intros sfx Hs. split.
    - cbn [filter]. rewrite LoopFacts.filter_filter_negb.
      unfold is_flag.
      now rewrite (StrFacts.startswith_append "--output=" (o ++ sfx)).
    - now rewrite !StrFacts.contains_append, Hl, Hs. }
  destruct Hc as [-> | ->].
  - exists o, ".go". split; [assumption|]. split; [now left|].
    unfold first_cmdline. rewrite script_options_generate_cmdline. now apply F.
  - exists o, "_race.go". split; [assumption|]. split; [now right|].
    unfold second_cmdline. rewrite script_options_generate_cmdline. now apply F.
Qed.

(** X8: the argument loop over a concatenation is the loop over the parts:
    a flag takes its value from the second part when it occurs there and
    from the first otherwise, and the forwarded arguments are those of the
    first part followed by those of the second. *)
Theorem parse_args_app (xs ys : list string) :
  parse_args (xs ++ ys) =
  {| output := match output (parse_args ys) with
               | Some g => Some g
               | None => output (parse_args xs)
               end;
     package := match package (parse_args ys) with
                | Some g => Some g
                | None => package (parse_args xs)
                end;
     generate_argv := generate_argv (parse_args xs) ++ generate_argv (parse_args ys) |}.
Proof.
  rewrite !ArgFacts.parse_args_spec. cbn [output package generate_argv].
  now rewrite !ArgFacts.flag_value_app, filter_app.
Qed.

(** X9: in an invocation that returns, the race-instrumented source is a
    file of its own, whatever the output path: it lies apart from the
    optimized source, from the placeholder and from the glue file; and the
    placeholder lies apart from the optimized source and from the glue
    file. *)
Theorem race_source_and_stub_stand_apart (p : process) (w : World) :
  fst (exec p w) = Return tt ->
  exists pool race stub glue,
    output_paths (trace (snd (exec p w))) = [pool; race; stub; glue] /\
    locate race <> locate pool /\
    locate race <> locate stub /\
    locate race <> locate glue /\
    locate stub <> locate pool /\
    locate stub <> locate glue.
Proof.
  intros H. destruct (run_returns spawn store p w H) as (o & g & _ & _ & _ & _ & E).
  rewrite E, output_paths_returns.
  exists (o ++ ".go")%string, (o ++ "_race.go")%string, (internal_s_path o), (internal_go_path o).
  split; [reflexivity|].
  unfold internal_s_path, internal_go_path.
  rewrite !FileFacts.locate_pool, !FileFacts.locate_internal
    by (try reflexivity; simpl; lia).
  destruct (FileFacts.names_apart (PosixPath.basename o)) as (H1 & H2 & H3 & H4 & H5).
  repeat split; intros X; apply FileFacts.beside_inj in X; congruence.
Qed.

(** X10: every expansion is handed the package the glue file declares: the
    forwarded arguments give [--package] the value the driver itself ends
    with. *)
Theorem engine_gets_same_package (p : process) (w : World) (c : list string) :
  In c (calls (trace (snd (exec p w)))) ->
  flag_value "--package=" (forwarded c) = flag_value "--package=" (args p).
Proof.
  intros Hin.
  destruct (calls_run spawn store p w c Hin) as (o & _ & [-> | ->]);
    unfold first_cmdline, second_cmdline;
    rewrite forwarded_generate_cmdline; apply LoopFacts.flag_value_package_filter.
Qed.

End MoreExtras.

(** ** The further properties at sample processes *)

Lemma returns_iff_witness :
  fst (run always_ok disk_ok ex_proc tt) = Return tt /\
  exists o g w1 w2 w3 w4,
    flag_value "--output=" (args ex_proc) = Some o /\ o <> ""%string /\
    flag_value "--package=" (args ex_proc) = Some g /\ g <> ""%string /\
    always_ok (first_cmdline ex_proc o) tt = (0%Z, w1) /\
    always_ok (second_cmdline ex_proc o) w1 = (0%Z, w2) /\
    disk_ok (internal_s_path o) internal_s_text w2 = Some w3 /\
    disk_ok (internal_go_path o) (internal_go_text g) w3 = Some w4 /\
    world (snd (run always_ok disk_ok ex_proc tt)) = w4.
Proof.
  split; [reflexivity|].
  exact (proj1 (returns_iff always_ok disk_ok ex_proc tt) eq_refl).
Defined.

Lemma log_matches_first_call_witness :
  ~ not_supplied "--package=" (args ex_proc) /\
  ~ not_supplied "--output=" (args ex_proc) /\
  exists c rest,
    trace (snd (run always_fail disk_ok ex_proc tt)) = LogDebug c :: CheckCall c :: rest /\
    logs (trace (snd (run always_fail disk_ok ex_proc tt))) = [c] /\
    hd_error (calls (trace (snd (run always_fail disk_ok ex_proc tt)))) = Some c.
Proof.
  assert (Hp : ~ not_supplied "--package=" (args ex_proc))
    by (rewrite ArgFacts.not_supplied_falsy; vm_compute; discriminate).
  assert (Ho : ~ not_supplied "--output=" (args ex_proc))
    by (rewrite ArgFacts.not_supplied_falsy; vm_compute; discriminate).
  split; [exact Hp|]. split; [exact Ho|].
  exact (log_matches_first_call always_fail disk_ok ex_proc tt Hp Ho).
Defined.

Lemma glue_has_fixed_lines_witness :
  exists g,
    flag_value "--package=" (args ex_proc) = Some g /\
    PyStr.contains PyStr.LF g = false /\
    PyStr.split PyStr.LF (internal_go_text "tests") = internal_go_lines g ++ [""] /\
    length (PyStr.split PyStr.LF (internal_go_text "tests")) = 27 /\
    forall i, i <> 1 ->
      nth i (PyStr.split PyStr.LF (internal_go_text "tests")) ""%string =
      nth i (internal_go_lines "" ++ [""]) ""%string.
Proof.
  apply (glue_has_fixed_lines always_ok disk_ok ex_proc tt
           "d/randomized_freepool_internal.go" (internal_go_text "tests")).
  - right; left; reflexivity.
  - reflexivity.
Defined.

Lemma engine_beside_driver_witness :
  locate (nth 1 (first_cmdline ex_proc "d/int_freepool") ""%string) =
    (false, [".."; "gtl"; "generate.py"]) /\
  exists tpl,
    (tpl = "randomized_freepool.go.tpl"%string \/
     tpl = "randomized_freepool_race.go.tpl"%string) /\
    locate (last (first_cmdline ex_proc "d/int_freepool") ""%string) =
      (false, [".."; "gtl"; tpl]).
Proof.
  assert (Hin : In (first_cmdline ex_proc "d/int_freepool")
                   (calls (trace (snd (run always_ok disk_ok ex_proc tt)))))
    by (left; reflexivity).
  exact (proj2 (engine_beside_driver always_ok disk_ok ex_proc tt _ Hin)).
Defined.

Lemma single_output_flag_witness :
  exists o sfx,
    flag_value "--output=" ["--output=a"; "-DELEM=int"; "--output=b"; "--package=p"] = Some o /\
    (sfx = ".go"%string \/ sfx = "_race.go"%string) /\
    filter (is_flag "--output=")
      ["--output=b_race.go"; "-DELEM=int"; "--package=p"] = [("--output=" ++ o ++ sfx)%string] /\
    PyStr.contains PyStr.LF ("--output=" ++ o ++ sfx) = false.
Proof.
  apply (single_output_flag always_ok disk_ok
           {| argv0 := "g.py";
              args := ["--output=a"; "-DELEM=int"; "--output=b"; "--package=p"];
              executable := "python" |} tt
           ["python"; "generate.py"; "--output=b_race.go"; "-DELEM=int"; "--package=p";
            "randomized_freepool_race.go.tpl"]).
  right; left; reflexivity.
Defined.

Lemma race_source_and_stub_stand_apart_witness :
  fst (run always_ok disk_ok clash_proc tt) = Return tt /\
  exists pool race stub glue,
    output_paths (trace (snd (run always_ok disk_ok clash_proc tt))) = [pool; race; stub; glue] /\
    locate race <> locate pool /\
    locate race <> locate stub /\
    locate race <> locate glue /\
    locate stub <> locate pool /\
    locate stub <> locate glue.
Proof.
  split; [reflexivity|].
  exact (race_source_and_stub_stand_apart always_ok disk_ok clash_proc tt eq_refl).
Defined.

Lemma engine_gets_same_package_witness :
  flag_value "--package="
    (forwarded ["python"; "generate.py"; "--output=o.go"; "--package=a"; "--package=b";
                "randomized_freepool.go.tpl"]) = Some "b"%string.
Proof.
  apply (engine_gets_same_package always_ok disk_ok
           {| argv0 := "g.py";
              args := ["--package=a"; "--output=x"; "--package=b"; "--output=o"];
              executable := "python" |} tt).
  left; reflexivity.
Defined.
